(** * TimeIt: a header-only scope timer for C and C++ (time_it.h)

    A shallow embedding of [time_it.h] and the properties of its scoped-timer
    lifecycle, its emitter and its sink installer.

    Conventions of the embedding.
    - C [int] and [long] (LP64: 32 and 64 bits) are [Z] with the two's
      complement wrap-around written out ([int_wrap], [long_wrap]).
    - [double] is IEEE binary64, as [spec_float] with precision 53 and
      [emax] 1024 (the Standard Library's executable specification).
    - [FILE *] is [option FILE]: [None] is [NULL].
    - The globals of the header, the thread-local [log_depth], the monotonic
      clock, the file system seen by [fopen] and the bytes written to every
      stream together form the [world]; every function of the header is a
      state transformer over it (the monad [M]).
    - [log10] and [pow] come from libm and the conversion of a NaN to [int]
      from the target; they are the fields of the class [Libm]. *)

From Stdlib Require Import ZArith List String Ascii Bool Lia.
From Stdlib Require Import SpecFloat DecimalString.
From Stdlib Require Reals Lra.
Import ListNotations.

Open Scope string_scope.
Open Scope Z_scope.

(** ** Machine integers *)

Definition wrap (bits z : Z) : Z :=
  (z + 2 ^ (bits - 1)) mod 2 ^ bits - 2 ^ (bits - 1).

Definition int_wrap : Z -> Z := wrap 32.
Definition long_wrap : Z -> Z := wrap 64.

Definition INT_MIN : Z := - 2 ^ 31.
Definition INT_MAX : Z := 2 ^ 31 - 1.
Definition LONG_MIN : Z := - 2 ^ 63.
Definition LONG_MAX : Z := 2 ^ 63 - 1.

Definition in_long (z : Z) : Prop := LONG_MIN <= z <= LONG_MAX.

(** printf's [%d]. *)
Definition fmt_d (z : Z) : string := NilZero.string_of_int (Z.to_int z).

(** ** IEEE binary64 *)

Module Double.

Definition prec : Z := 53.
Definition emax : Z := 1024.

Definition t : Type := spec_float.

(** The conversion of an integer, [(double)z], to nearest even. *)
Definition of_Z (z : Z) : t := binary_normalize prec emax z 0 false.

Definition eqb : t -> t -> bool := SFeqb.
Definition div : t -> t -> t := SFdiv prec emax.

(** [floor]: exact, every result is representable. *)
Definition floor (x : t) : t :=
  match x with
  | S754_finite s m e =>
      if 0 <=? e then x
      else binary_normalize prec emax (cond_Zopp s (Zpos m) / 2 ^ (- e)) 0 s
  | _ => x
  end.

(** The integer a finite double truncates to (toward zero). *)
Definition trunc (x : t) : option Z :=
  match x with
  | S754_zero _ => Some 0
  | S754_finite s m e =>
      Some (if 0 <=? e then cond_Zopp s (Zpos m) * 2 ^ e
            else Z.quot (cond_Zopp s (Zpos m)) (2 ^ (- e)))
  | _ => None
  end.

(** [(int)x]. The conversion is defined when the truncated value is an
    [int]; otherwise (NaN, infinities, out of range) the C standard leaves
    it open and the target decides: [invalid] is what it yields. *)
Definition to_int (invalid : Z) (x : t) : Z :=
  match trunc x with
  | Some z => if (INT_MIN <=? z) && (z <=? INT_MAX) then z else invalid
  | None => invalid
  end.

(** The nearest integer to [n / d], ties to even ([0 < d]). *)
Definition div_nearest_even (n d : Z) : Z :=
  let q := n / d in
  let r := n mod d in
  match 2 * r ?= d with
  | Lt => q
  | Gt => q + 1
  | Eq => if Z.even q then q else q + 1
  end.

(** The thousandths of the magnitude of a finite double, rounded to
    nearest even from its exact binary value, as printf does. *)
Definition thousandths (m : positive) (e : Z) : Z :=
  if 0 <=? e then Zpos m * 2 ^ e * 1000
  else div_nearest_even (Zpos m * 1000) (2 ^ (- e)).

Definition digit (z : Z) : string := fmt_d (z mod 10).

Definition sign_text (s : bool) : string := if s then "-" else "".

(** printf's [%.3f]: the integer part, a point and exactly three decimals. *)
Definition fmt_3f (x : t) : string :=
  match x with
  | S754_nan => "nan"
  | S754_infinity s => sign_text s ++ "inf"
  | S754_zero s => sign_text s ++ "0.000"
  | S754_finite s m e =>
      let n := thousandths m e in
      sign_text s ++ fmt_d (n / 1000) ++ "."
        ++ digit (n / 100) ++ digit (n / 10) ++ digit n
  end.

End Double.

(** ** The C library's mathematics *)

(** What the header takes from outside: libm's [log10] on finite positive
    doubles and its [pow], and the target's result for a double-to-int
    conversion that is not defined. *)
Class Libm : Type := {
  log10_finite_pos : positive -> Z -> Double.t;
  pow : Double.t -> Double.t -> Double.t;
  cast_int_invalid : Z
}.

(** [log10] with the special values C11 F.10.3.8 fixes: a NaN for a negative
    argument, minus infinity at zero. *)
Definition log10 `{Libm} (x : Double.t) : Double.t :=
  match x with
  | S754_nan => S754_nan
  | S754_infinity false => S754_infinity false
  | S754_infinity true => S754_nan
  | S754_zero _ => S754_infinity true
  | S754_finite true _ _ => S754_nan
  | S754_finite false m e => log10_finite_pos m e
  end.

(** ** Streams, instants and the timer record *)

(** A stream object; [FILE *] is [option FILE], [None] being [NULL]. *)
Inductive FILE : Type :=
| stderr
| opened (fd : nat).

Definition FILE_eqb (f g : FILE) : bool :=
  match f, g with
  | stderr, stderr => true
  | opened a, opened b => Nat.eqb a b
  | _, _ => false
  end.

Record timespec : Type := { tv_sec : Z; tv_nsec : Z }.

(** [log_timer_t]. *)
Record log_timer_t : Type := {
  name : string;
  category : string;
  start : timespec;
  depth : Z
}.

(** One call of fputs or fprintf: the stream and the bytes it got. *)
Definition write_event : Type := (FILE * string)%type.

(** ** The world *)

Record world : Type := {
  time_it_tree_file : option FILE;
  time_it_csv_file : option FILE;
  time_it_enable_tree : Z;
  time_it_enable_csv : Z;
  log_depth : Z;
  (** CLOCK_MONOTONIC: the reading of the n-th call of clock_gettime. *)
  monotonic : nat -> timespec;
  clock_reads : nat;
  (** The paths fopen can open for appending, and the next fresh stream. *)
  openable : string -> bool;
  next_fd : nat;
  (** Every write so far, oldest first, and the streams closed so far. *)
  written : list write_event;
  closed : list FILE
}.

Definition with_tree_file (f : option FILE) (w : world) : world :=
  {| time_it_tree_file := f; time_it_csv_file := time_it_csv_file w;
     time_it_enable_tree := time_it_enable_tree w;
     time_it_enable_csv := time_it_enable_csv w; log_depth := log_depth w;
     monotonic := monotonic w; clock_reads := clock_reads w;
     openable := openable w; next_fd := next_fd w;
     written := written w; closed := closed w |}.

Definition with_csv_file (f : option FILE) (w : world) : world :=
  {| time_it_tree_file := time_it_tree_file w; time_it_csv_file := f;
     time_it_enable_tree := time_it_enable_tree w;
     time_it_enable_csv := time_it_enable_csv w; log_depth := log_depth w;
     monotonic := monotonic w; clock_reads := clock_reads w;
     openable := openable w; next_fd := next_fd w;
     written := written w; closed := closed w |}.

Definition with_enable_tree (b : Z) (w : world) : world :=
  {| time_it_tree_file := time_it_tree_file w;
     time_it_csv_file := time_it_csv_file w;
     time_it_enable_tree := b;
     time_it_enable_csv := time_it_enable_csv w; log_depth := log_depth w;
     monotonic := monotonic w; clock_reads := clock_reads w;
     openable := openable w; next_fd := next_fd w;
     written := written w; closed := closed w |}.

Definition with_enable_csv (b : Z) (w : world) : world :=
  {| time_it_tree_file := time_it_tree_file w;
     time_it_csv_file := time_it_csv_file w;
     time_it_enable_tree := time_it_enable_tree w;
     time_it_enable_csv := b; log_depth := log_depth w;
     monotonic := monotonic w; clock_reads := clock_reads w;
     openable := openable w; next_fd := next_fd w;
     written := written w; closed := closed w |}.

Definition with_log_depth (d : Z) (w : world) : world :=
  {| time_it_tree_file := time_it_tree_file w;
     time_it_csv_file := time_it_csv_file w;
     time_it_enable_tree := time_it_enable_tree w;
     time_it_enable_csv := time_it_enable_csv w; log_depth := d;
     monotonic := monotonic w; clock_reads := clock_reads w;
     openable := openable w; next_fd := next_fd w;
     written := written w; closed := closed w |}.

Definition with_clock_reads (n : nat) (w : world) : world :=
  {| time_it_tree_file := time_it_tree_file w;
     time_it_csv_file := time_it_csv_file w;
     time_it_enable_tree := time_it_enable_tree w;
     time_it_enable_csv := time_it_enable_csv w; log_depth := log_depth w;
     monotonic := monotonic w; clock_reads := n;
     openable := openable w; next_fd := next_fd w;
     written := written w; closed := closed w |}.

Definition with_next_fd (n : nat) (w : world) : world :=
  {| time_it_tree_file := time_it_tree_file w;
     time_it_csv_file := time_it_csv_file w;
     time_it_enable_tree := time_it_enable_tree w;
     time_it_enable_csv := time_it_enable_csv w; log_depth := log_depth w;
     monotonic := monotonic w; clock_reads := clock_reads w;
     openable := openable w; next_fd := n;
     written := written w; closed := closed w |}.

Definition with_written (l : list write_event) (w : world) : world :=
  {| time_it_tree_file := time_it_tree_file w;
     time_it_csv_file := time_it_csv_file w;
     time_it_enable_tree := time_it_enable_tree w;
     time_it_enable_csv := time_it_enable_csv w; log_depth := log_depth w;
     monotonic := monotonic w; clock_reads := clock_reads w;
     openable := openable w; next_fd := next_fd w;
     written := l; closed := closed w |}.

Definition with_closed (l : list FILE) (w : world) : world :=
  {| time_it_tree_file := time_it_tree_file w;
     time_it_csv_file := time_it_csv_file w;
     time_it_enable_tree := time_it_enable_tree w;
     time_it_enable_csv := time_it_enable_csv w; log_depth := log_depth w;
     monotonic := monotonic w; clock_reads := clock_reads w;
     openable := openable w; next_fd := next_fd w;
     written := written w; closed := l |}.

(** ** The state monad of the header's functions *)

Definition M (A : Type) : Type := world -> A * world.

Definition ret {A : Type} (a : A) : M A := fun w => (a, w).

Definition bind {A B : Type} (m : M A) (k : A -> M B) : M B :=
  fun w => let (a, w') := m w in k a w'.

Declare Scope timeit_scope.
Delimit Scope timeit_scope with timeit.

Notation "x <- m ;; k" := (bind m (fun x => k))
  (at level 100, m at next level, right associativity) : timeit_scope.
Notation "m ;; k" := (bind m (fun _ => k))
  (at level 100, right associativity) : timeit_scope.

Open Scope timeit_scope.

(** The world a computation leaves, and what it returns. *)
Definition exec {A : Type} (m : M A) (w : world) : world := snd (m w).
Definition eval {A : Type} (m : M A) (w : world) : A := fst (m w).

(** *** The C library's effects *)

(** fputs, and fprintf once its arguments are formatted. *)
Definition fputs (s : string) (f : FILE) : M unit :=
  fun w => (tt, with_written (written w ++ [(f, s)])%list w).

Definition clock_gettime : M timespec :=
  fun w => (monotonic w (clock_reads w), with_clock_reads (S (clock_reads w)) w).

(** [fopen (path, "a")]: a fresh stream, or [NULL]. *)
Definition fopen (path : string) : M (option FILE) :=
  fun w =>
    if openable w path
    then (Some (opened (next_fd w)), with_next_fd (S (next_fd w)) w)
    else (None, w).

Definition fclose (f : FILE) : M unit :=
  fun w => (tt, with_closed (f :: closed w) w).

(** [snprintf (buf, size, "%s<suffix>", s)]: at most [size - 1] bytes. *)
Definition snprintf (size : nat) (s suffix : string) : string :=
  substring 0 (size - 1) (s ++ suffix).

(** [for (int i = 0; i < n; ++i) body]. *)
Fixpoint for_upto (n : nat) (body : M unit) : M unit :=
  match n with
  | O => ret tt
  | S k => body ;; for_upto k body
  end.

(** ** time_it.h *)

(** *** Configurable outputs *)

Definition time_it_set_tree_file (f : option FILE) : M unit :=
  fun w => (tt, with_tree_file f w).
Definition time_it_set_csv_file (f : option FILE) : M unit :=
  fun w => (tt, with_csv_file f w).
Definition time_it_set_tree (enable : Z) : M unit :=
  fun w => (tt, with_enable_tree enable w).
Definition time_it_set_csv (enable : Z) : M unit :=
  fun w => (tt, with_enable_csv enable w).

(** The string ["\n"]. *)
Definition LF : string := String (ascii_of_nat 10) EmptyString.

(** The value of [p ? p : stderr]. *)
Definition or_stderr (p : option FILE) : FILE :=
  match p with
  | Some f => f
  | None => stderr
  end.

(** *** print_scientific *)

Section Header.

Context `{Libm}.

(** The exponent of the general case:
    [((int)floor(log10(value) / 3.0)) * 3]. *)
Definition exp3_of (value : Double.t) : Z :=
  let log10v := log10 value in
  int_wrap
    (Double.to_int cast_int_invalid
       (Double.floor (Double.div log10v (Double.of_Z 3))) * 3).

(** The general case: ["%.3fe%d"] of [value / pow(10.0, exp3)] and [exp3]. *)
Definition general_text (value : Double.t) : string :=
  let exp3 := exp3_of value in
  let scaled := Double.div value (pow (Double.of_Z 10) (Double.of_Z exp3)) in
  Double.fmt_3f scaled ++ "e" ++ fmt_d exp3.

(** The bytes print_scientific hands to its one fprintf. *)
Definition print_scientific_text (elapsed_ns : Z) : string :=
  let value := Double.of_Z elapsed_ns in
  if Double.eqb value (Double.of_Z 0) then "0.0e0"
  else general_text value.

Definition print_scientific (out : FILE) (elapsed_ns : Z) : M unit :=
  fputs (print_scientific_text elapsed_ns) out.

(** *** log_timer_end

    The function takes [log_timer_t *t]: it gets the record [t] points to
    and returns it as it leaves it. *)
Definition log_timer_end (t : log_timer_t) (elapsed_ns : Z) : M log_timer_t :=
  fun w =>
    let tree_out := or_stderr (time_it_tree_file w) in
    let csv_out := or_stderr (time_it_csv_file w) in
    ((if negb (time_it_enable_tree w =? 0) then
        for_upto (Z.to_nat (depth t)) (fputs "    " tree_out) ;;
        fputs (name t ++ " [" ++ category t ++ "]: ") tree_out ;;
        print_scientific tree_out elapsed_ns ;;
        fputs LF tree_out
      else ret tt) ;;
     (if negb (time_it_enable_csv w =? 0) then
        fputs (fmt_d (depth t) ++ "," ++ name t ++ "," ++ category t ++ ",")
          csv_out ;;
        print_scientific csv_out elapsed_ns ;;
        fputs LF csv_out
      else ret tt) ;;
     ret t) w.

(** *** The scoped timer *)

(** [(end.tv_sec - start.tv_sec) * 1000000000L + (end.tv_nsec - start.tv_nsec)]
    in [long] arithmetic. *)
Definition elapsed_ns_of (start_ end_ : timespec) : Z :=
  long_wrap
    (long_wrap (long_wrap (tv_sec end_ - tv_sec start_) * 1000000000)
     + long_wrap (tv_nsec end_ - tv_nsec start_)).

(** [log_depth++] and [log_depth--]. *)
Definition log_depth_post_incr : M Z :=
  fun w => (log_depth w, with_log_depth (int_wrap (log_depth w + 1)) w).
Definition log_depth_post_decr : M Z :=
  fun w => (log_depth w, with_log_depth (int_wrap (log_depth w - 1)) w).

(** The constructor [TimeItTimer::TimeItTimer]; the object is its member [t_]. *)
Definition TimeItTimer (name_ category_ : string) : M log_timer_t :=
  d <- log_depth_post_incr ;;
  ts <- clock_gettime ;;
  ret {| name := name_; category := category_; start := ts; depth := d |}.

(** The destructor [TimeItTimer::~TimeItTimer]. *)
Definition TimeItTimer_dtor (t_ : log_timer_t) : M unit :=
  end_ <- clock_gettime ;;
  let elapsed_ns := elapsed_ns_of (start t_) end_ in
  t_' <- log_timer_end t_ elapsed_ns ;;
  log_depth_post_decr ;;
  ret tt.

(** The C macro [TIME_IT (cat)], [func] being [LOG_FUNC_NAME]. *)
Definition TIME_IT (func cat : string) : M log_timer_t :=
  d <- log_depth_post_incr ;;
  ts <- clock_gettime ;;
  ret {| name := func; category := cat; start := ts; depth := d |}.

(** [log_timer_cleanup], the cleanup handler of the C macro's variable. *)
Definition log_timer_cleanup (t : log_timer_t) : M unit :=
  end_ <- clock_gettime ;;
  let elapsed_ns := elapsed_ns_of (start t) end_ in
  t' <- log_timer_end t elapsed_ns ;;
  log_depth_post_decr ;;
  ret tt.

(** A C++ scope that declares [TIME_IT (cat)] first and then runs [body]:
    the object is destroyed when the scope is left. *)
Definition cxx_scope {A : Type} (func cat : string) (body : M A) : M A :=
  t_ <- TimeItTimer func cat ;;
  r <- body ;;
  TimeItTimer_dtor t_ ;;
  ret r.

(** The same scope in C, with the cleanup attribute. *)
Definition c_scope {A : Type} (func cat : string) (body : M A) : M A :=
  t <- TIME_IT func cat ;;
  r <- body ;;
  log_timer_cleanup t ;;
  ret r.

End Header.

(** *** The sink installer *)

(** The object of [TimeItBasenameFiles]: its members [tree_f_] and [csv_f_]. *)
Record TimeItBasenameFiles_t : Type := {
  tree_f_ : option FILE;
  csv_f_ : option FILE
}.

(** The constructor: after both calls of fopen, a member that is null is set
    to [stderr]. *)
Definition TimeItBasenameFiles (basename : string) : M TimeItBasenameFiles_t :=
  let tree_path := snprintf 512 basename ".log" in
  let csv_path := snprintf 512 basename ".csv" in
  tree_f <- fopen tree_path ;;
  csv_f <- fopen csv_path ;;
  let tree_f := Some (or_stderr tree_f) in
  let csv_f := Some (or_stderr csv_f) in
  time_it_set_tree_file tree_f ;;
  time_it_set_csv_file csv_f ;;
  ret {| tree_f_ := tree_f; csv_f_ := csv_f |}.

(** [if (f && f != stderr) fclose (f)]. *)
Definition close_unless_stderr (f : option FILE) : M unit :=
  match f with
  | Some g => if FILE_eqb g stderr then ret tt else fclose g
  | None => ret tt
  end.

Definition TimeItBasenameFiles_dtor (o : TimeItBasenameFiles_t) : M unit :=
  close_unless_stderr (tree_f_ o) ;;
  close_unless_stderr (csv_f_ o) ;;
  time_it_set_tree_file (Some stderr) ;;
  time_it_set_csv_file (Some stderr).

(** The C path. [time_it_file_cleanup (FILE **f)] gets the variable's value;
    the address of a local is never null. *)
Definition time_it_file_cleanup (f : option FILE) : M unit :=
  close_unless_stderr f.

(** The locals the C macro [SET_TIME_IT_OUTPUT_FILE_BASENAME] declares. *)
Record basename_locals : Type := {
  __time_it_tree__ : option FILE;
  __time_it_csv__ : option FILE
}.

Definition SET_TIME_IT_OUTPUT_FILE_BASENAME (basename : string)
  : M basename_locals :=
  let tree_path := snprintf 512 basename ".log" in
  let csv_path := snprintf 512 basename ".csv" in
  tree <- fopen tree_path ;;
  csv <- fopen csv_path ;;
  time_it_set_tree_file (Some (or_stderr tree)) ;;
  time_it_set_csv_file (Some (or_stderr csv)) ;;
  ret {| __time_it_tree__ := tree; __time_it_csv__ := csv |}.

(** Leaving the scope of the C macro: the cleanup handlers run in the reverse
    order of the declarations. *)
Definition SET_TIME_IT_OUTPUT_FILE_BASENAME_cleanup (l : basename_locals)
  : M unit :=
  time_it_file_cleanup (__time_it_csv__ l) ;;
  time_it_file_cleanup (__time_it_tree__ l).

(** ** What a computation writes *)

(** The writes a computation adds to those already made. *)
Definition new_writes {A : Type} (m : M A) (w : world) : list write_event :=
  skipn (List.length (written w)) (written (exec m w)).


(** [n] copies of a string, and [n] copies of the four spaces the tree output
    indents by. *)
Fixpoint copies (n : nat) (s : string) : string :=
  match n with
  | O => ""
  | S k => s ++ copies k s
  end.


Section Emitted.

Context `{Libm}.

(** The calls log_timer_end makes for the tree line and for the record of
    the tabular output. *)
Definition tree_writes (out : FILE) (t : log_timer_t) (elapsed_ns : Z)
  : list write_event :=
  List.app
    (repeat (out, "    ") (Z.to_nat (depth t)))
    [(out, name t ++ " [" ++ category t ++ "]: ");
     (out, print_scientific_text elapsed_ns);
     (out, LF)].

Definition csv_writes (out : FILE) (t : log_timer_t) (elapsed_ns : Z)
  : list write_event :=
  [(out, fmt_d (depth t) ++ "," ++ name t ++ "," ++ category t ++ ",");
   (out, print_scientific_text elapsed_ns);
   (out, LF)].

(** All of them, by the enable flags and the sinks of the world the emitter
    runs in. *)
Definition emitted (w : world) (t : log_timer_t) (elapsed_ns : Z)
  : list write_event :=
  List.app
    (if time_it_enable_tree w =? 0 then []
     else tree_writes (or_stderr (time_it_tree_file w)) t elapsed_ns)
    (if time_it_enable_csv w =? 0 then []
     else csv_writes (or_stderr (time_it_csv_file w)) t elapsed_ns).

(** Three nested scopes, [A] around [B] around [C], in C++ and in C. *)
Definition nested3_cxx (fA cA fB cB fC cC : string) : M unit :=
  cxx_scope fA cA (cxx_scope fB cB (cxx_scope fC cC (ret tt))).

Definition nested3_c (fA cA fB cB fC cC : string) : M unit :=
  c_scope fA cA (c_scope fB cB (c_scope fC cC (ret tt))).

End Emitted.

(** ** Instants in nanoseconds *)

(** The instant of a timespec in nanoseconds. *)
Definition total_ns (ts : timespec) : Z := tv_sec ts * 1000000000 + tv_nsec ts.

(** The spec's elapsed time, in its words: when the sub-second component of
    the end is smaller than that of the start, borrow one second from the
    whole-second component before subtracting. *)
Definition elapsed_nanos_borrow (start_ end_ : timespec) : Z :=
  if tv_nsec end_ <? tv_nsec start_
  then (tv_sec end_ - tv_sec start_ - 1) * 1000000000
       + (tv_nsec end_ + 1000000000 - tv_nsec start_)
  else (tv_sec end_ - tv_sec start_) * 1000000000
       + (tv_nsec end_ - tv_nsec start_).

(** A double that is not a NaN and not a zero, of sign [s]. *)
Definition signed_nonzero (s : bool) (x : Double.t) : Prop :=
  (exists m e, x = S754_finite s m e) \/ x = S754_infinity s.

(** ** A libm and a world to run the model on

    [log10] answers the integer part of the exact logarithm, which is all
    print_scientific keeps of it after [floor]; [pow] answers powers of ten at
    integer exponents, with the overflow and underflow of binary64; the
    conversion of a NaN to [int] yields x86-64's integer indefinite,
    [INT_MIN]. *)
Module SampleLibm.

(** [floor (log10 n)] for [1 <= n]. *)
Definition ilog10 (n : Z) : Z := Z.of_nat (String.length (fmt_d n)) - 1.

Definition log10_pos (m : positive) (e : Z) : Double.t :=
  if 0 <=? e then Double.of_Z (ilog10 (Zpos m * 2 ^ e))
  else if Zpos m <? 2 ^ (- e)
       then Double.of_Z (- (ilog10 (2 ^ (- e) / Zpos m) + 1))
       else Double.of_Z (ilog10 (Zpos m / 2 ^ (- e))).

Definition pow10 (y : Double.t) : Double.t :=
  match Double.trunc y with
  | Some k =>
      if Double.eqb (Double.of_Z k) y then
        if k <? -400 then S754_zero false
        else if 400 <? k then S754_infinity false
        else if k <? 0 then Double.div (Double.of_Z 1) (Double.of_Z (10 ^ (- k)))
        else Double.of_Z (10 ^ k)
      else S754_nan
  | None => S754_nan
  end.

Definition pow_of_ten (x y : Double.t) : Double.t :=
  if Double.eqb x (Double.of_Z 10) then pow10 y else S754_nan.

#[export] Instance libm : Libm := {|
  log10_finite_pos := log10_pos;
  pow := pow_of_ten;
  cast_int_invalid := INT_MIN
|}.

End SampleLibm.

(** The world at program start, from the initialisers of the header: both
    sinks null, both formats enabled ([LOG_OUTPUT_TREE] and [LOG_OUTPUT_CSV]
    default to 1), depth 0, nothing written. *)
Definition initial_world (clock : nat -> timespec) (fs : string -> bool) : world :=
  {| time_it_tree_file := None; time_it_csv_file := None;
     time_it_enable_tree := 1; time_it_enable_csv := 1; log_depth := 0;
     monotonic := clock; clock_reads := 0;
     openable := fs; next_fd := 0;
     written := []; closed := [] |}.

(** A clock whose sub-second field runs down while the seconds run up, and a
    file system where every path opens. *)
Definition sample_clock (n : nat) : timespec :=
  {| tv_sec := 100 + Z.of_nat n; tv_nsec := 999999999 - 7 * Z.of_nat n |}.

Definition sample_world : world := initial_world sample_clock (fun _ => true).

Definition sample_timer : log_timer_t :=
  {| name := "main"; category := "work";
     start := {| tv_sec := 1; tv_nsec := 900000000 |}; depth := 1 |}.

(** A world whose clock reads 2.1 s, two tenths of a second after the start
    of [sample_timer] and with the smaller sub-second field; and one whose
    clock reads 0.9 s, before that start. *)
Definition later_world : world :=
  initial_world (fun _ => {| tv_sec := 2; tv_nsec := 100000000 |}) (fun _ => true).

Definition backwards_world : world :=
  initial_world (fun _ => {| tv_sec := 0; tv_nsec := 900000000 |}) (fun _ => true).

(** ** Programs of timed scopes *)

(** A block of code that does nothing but time scopes: no scope, or a scope
    [func]/[cat] around the scopes [inner], followed by the scopes [next]. *)
Inductive forest : Type :=
| Fnil
| Fcons (func cat : string) (inner next : forest).

Section Forests.

Context `{Libm}.

Fixpoint run_forest (p : forest) : M unit :=
  match p with
  | Fnil => ret tt
  | Fcons f c inner next => cxx_scope f c (run_forest inner) ;; run_forest next
  end.

End Forests.

(** The number of scopes and the deepest nesting of a block. *)
Fixpoint forest_size (p : forest) : nat :=
  match p with
  | Fnil => O
  | Fcons _ _ inner next => S (forest_size inner + forest_size next)
  end.

Fixpoint forest_height (p : forest) : Z :=
  match p with
  | Fnil => 0
  | Fcons _ _ inner next => Z.max (1 + forest_height inner) (forest_height next)
  end.

(** The records of a block in the order in which its scopes are left, each
    with its elapsed time: a scope entered at depth [d] on the [r]-th reading
    of the clock comes after the scopes inside it, which are one level
    deeper, and before the scopes that follow it. *)
Fixpoint forest_records (clock : nat -> timespec) (d : Z) (r : nat) (p : forest)
  : list (log_timer_t * Z) :=
  match p with
  | Fnil => []
  | Fcons f c inner next =>
      let r_end := S (r + 2 * forest_size inner) in
      List.app
        (forest_records clock (d + 1) (S r) inner)
        (({| name := f; category := c; start := clock r; depth := d |},
          elapsed_ns_of (clock r) (clock r_end))
         :: forest_records clock d (S r_end) next)
  end.

(** The program of the README: main times itself, calls sub_task and then
    times a block of extra work. *)
Definition readme_program : forest :=
  Fcons "main" "main scope"
    (Fcons "sub_task" "sub_task" Fnil (Fcons "main" "extra work" Fnil Fnil))
    Fnil.

(** ** The paths and the streams of the sink installer *)

(** The locals [tree_path] and [csv_path] of the installer. *)
Definition tree_path_of (basename : string) : string := snprintf 512 basename ".log".
Definition csv_path_of (basename : string) : string := snprintf 512 basename ".csv".

(** The streams [close_unless_stderr] closes. *)
Definition closing (f : option FILE) : list FILE :=
  match f with
  | Some (opened fd) => [opened fd]
  | _ => []
  end.

(** ** A function that installs the sinks and then times scopes *)

Section Mains.

Context `{Libm}.

(** In C++: the installer is declared first and destroyed last. *)
Definition cxx_main (basename : string) (p : forest) : M unit :=
  o <- TimeItBasenameFiles basename ;;
  run_forest p ;;
  TimeItBasenameFiles_dtor o.

(** In C, with the macro and its cleanup handlers. *)
Definition c_main (basename : string) (p : forest) : M unit :=
  l <- SET_TIME_IT_OUTPUT_FILE_BASENAME basename ;;
  run_forest p ;;
  SET_TIME_IT_OUTPUT_FILE_BASENAME_cleanup l.

End Mains.

(** ** The formatter in the specification's words *)




(** * Properties *)

(** ** Lists, strings and the monad *)

Lemma skipn_length_app {A : Type} (l r : list A) :
  skipn (List.length l) (l ++ r)%list = r.
Proof. induction l as [| a l IH]; simpl; auto. Qed.

Lemma new_writes_of_append {A : Type} (m : M A) (w : world) (ws : list write_event) :
  written (exec m w) = (written w ++ ws)%list -> new_writes m w = ws.
Proof. unfold new_writes. intros ->. apply skipn_length_app. Qed.

Lemma with_written_same (w : world) : with_written (written w) w = w.
Proof. destruct w; reflexivity. Qed.

Lemma for_upto_fputs (n : nat) (s : string) (f : FILE) (w : world) :
  for_upto n (fputs s f) w
  = (tt, with_written (written w ++ repeat (f, s) n)%list w).
Proof.
  revert w. induction n as [| n IH]; intros w; simpl.
  - unfold ret. rewrite app_nil_r, with_written_same. reflexivity.
  - unfold bind, fputs at 1. rewrite IH. cbn [written with_written].
    rewrite <- app_assoc. reflexivity.
Qed.


Lemma string_app_length (a b : string) :
  String.length (a ++ b) = (String.length a + String.length b)%nat.
Proof. induction a as [| x a IH]; simpl; [ reflexivity | now rewrite IH ]. Qed.




(** ** Machine arithmetic *)

Lemma int_wrap_id (z : Z) : INT_MIN <= z <= INT_MAX -> int_wrap z = z.
Proof.
  unfold int_wrap, wrap, INT_MIN, INT_MAX. intros Hz.
  rewrite Z.mod_small; lia.
Qed.

Lemma long_wrap_id (z : Z) : in_long z -> long_wrap z = z.
Proof.
  unfold in_long, long_wrap, wrap, LONG_MIN, LONG_MAX. intros Hz.
  rewrite Z.mod_small; lia.
Qed.

Lemma wrap_mod (bits z : Z) : 0 < bits -> wrap bits z mod 2 ^ bits = z mod 2 ^ bits.
Proof.
  intros Hb. unfold wrap.
  assert (Hp : 0 < 2 ^ bits) by (apply Z.pow_pos_nonneg; lia).
  assert (Hh : 2 ^ bits = 2 * 2 ^ (bits - 1)).
  { rewrite <- Z.pow_succ_r by lia. f_equal. lia. }
  rewrite Zminus_mod, Zmod_mod, <- Zminus_mod.
  f_equal. lia.
Qed.

Lemma wrap_congr (bits x y : Z) :
  0 < bits -> x mod 2 ^ bits = y mod 2 ^ bits -> wrap bits x = wrap bits y.
Proof.
  intros Hb Hxy. unfold wrap. f_equal.
  rewrite (Zplus_mod x), (Zplus_mod y), Hxy. reflexivity.
Qed.

Lemma elapsed_ns_of_exact (s e : timespec) :
  in_long (total_ns e - total_ns s) ->
  elapsed_ns_of s e = total_ns e - total_ns s.
Proof.
  intros Hr. unfold elapsed_ns_of.
  rewrite <- (long_wrap_id (total_ns e - total_ns s)) by exact Hr.
  unfold long_wrap. apply wrap_congr; [ lia | ].
  rewrite Zplus_mod, !wrap_mod by lia.
  rewrite Zmult_mod, wrap_mod by lia.
  rewrite <- Zmult_mod, <- Zplus_mod.
  f_equal. unfold total_ns. lia.
Qed.

Lemma elapsed_nanos_borrow_exact (s e : timespec) :
  elapsed_nanos_borrow s e = total_ns e - total_ns s.
Proof.
  unfold elapsed_nanos_borrow, total_ns.
  destruct (tv_nsec e <? tv_nsec s); lia.
Qed.

(** ** The conversion of a non-zero integer to binary64 is not zero *)

Lemma shr_1_halves (mrs : shr_record) :
  0 <= shr_m mrs -> shr_m (shr_1 mrs) = shr_m mrs / 2.
Proof.
  destruct mrs as [m r s]. cbn [shr_m]. intros Hm.
  destruct m as [| p | p]; [ reflexivity | | lia ].
  destruct p as [p | p |]; cbn [shr_1 shr_m].
  - apply Z.div_unique with 1; lia.
  - apply Z.div_unique with 0; lia.
  - reflexivity.
Qed.

Lemma iter_shr_1_divides (p : positive) :
  forall mrs : shr_record,
    0 <= shr_m mrs -> shr_m (iter_pos shr_1 p mrs) = shr_m mrs / 2 ^ Zpos p.
Proof.
  assert (Hnn : forall a k, 0 <= a -> 0 <= a / 2 ^ Zpos k).
  { intros a k Ha. apply Z.div_pos; [ exact Ha | ]. apply Z.pow_pos_nonneg; lia. }
  induction p as [p IH | p IH |]; intros mrs Hm; cbn [iter_pos].
  - rewrite IH, IH, shr_1_halves; try assumption.
    + rewrite !Z.div_div by (try apply Z.pow_pos_nonneg; lia).
      f_equal.
      replace (Zpos p~1) with (1 + Zpos p + Zpos p) by lia.
      rewrite !Z.pow_add_r by lia. lia.
    + rewrite shr_1_halves by assumption. apply Z.div_pos; lia.
    + rewrite IH.
      * apply Hnn. rewrite shr_1_halves by assumption. apply Z.div_pos; lia.
      * rewrite shr_1_halves by assumption. apply Z.div_pos; lia.
  - rewrite IH, IH; try assumption.
    + rewrite Z.div_div by (try apply Z.pow_pos_nonneg; lia).
      f_equal.
      replace (Zpos p~0) with (Zpos p + Zpos p) by lia.
      rewrite Z.pow_add_r by lia. reflexivity.
    + rewrite IH by assumption. apply Hnn, Hm.
  - rewrite shr_1_halves by assumption. reflexivity.
Qed.

Lemma digits2_pos_lower (p : positive) : 2 ^ (Zpos (digits2_pos p) - 1) <= Zpos p.
Proof.
  assert (Hstep : forall d : positive,
             2 ^ (Zpos (Pos.succ d) - 1) = 2 * 2 ^ (Zpos d - 1)).
  { intros d. rewrite Pos2Z.inj_succ.
    replace (Z.succ (Zpos d) - 1) with (Z.succ (Zpos d - 1)) by lia.
    apply Z.pow_succ_r. lia. }
  induction p as [p IH | p IH |]; cbn [digits2_pos].
  - rewrite Hstep. lia.
  - rewrite Hstep. lia.
  - simpl. lia.
Qed.

Lemma shr_fexp_positive (p : positive) (e : Z) (l : location) :
  emin Double.prec Double.emax <= e ->
  0 < shr_m (fst (shr_fexp Double.prec Double.emax (Zpos p) e l))
  /\ emin Double.prec Double.emax
     <= snd (shr_fexp Double.prec Double.emax (Zpos p) e l).
Proof.
  intros He. unfold shr_fexp, shr.
  assert (Hm : shr_m (shr_record_of_loc (Zpos p) l) = Zpos p)
    by (destruct l as [| []]; reflexivity).
  destruct (fexp Double.prec Double.emax (Zdigits2 (Zpos p) + e) - e)
    as [| n | n] eqn:Hn; cbn [fst snd]; try (rewrite Hm; split; lia).
  split; [ | lia ].
  rewrite iter_shr_1_divides by (rewrite Hm; lia). rewrite Hm.
  assert (Hle : Zpos n <= Zpos (digits2_pos p) - 1).
  { revert Hn He. unfold fexp, emin, Double.prec, Double.emax. cbn [Zdigits2]. lia. }
  apply Z.div_str_pos. split; [ apply Z.pow_pos_nonneg; lia | ].
  apply Z.le_trans with (2 ^ (Zpos (digits2_pos p) - 1)).
  - apply Z.pow_le_mono_r; lia.
  - apply digits2_pos_lower.
Qed.

Lemma round_nearest_even_positive (m : Z) (l : location) :
  0 < m -> 0 < round_nearest_even m l.
Proof.
  intros Hm. unfold round_nearest_even.
  destruct l as [| []]; try destruct (Z.even m); lia.
Qed.

Lemma binary_round_aux_nonzero (s : bool) (p : positive) (e : Z) (l : location) :
  emin Double.prec Double.emax <= e ->
  signed_nonzero s (binary_round_aux Double.prec Double.emax s (Zpos p) e l).
Proof.
  intros He. unfold binary_round_aux.
  destruct (shr_fexp_positive p e l He) as [Hm1 He1].
  destruct (shr_fexp Double.prec Double.emax (Zpos p) e l) as [mrs1 e1].
  cbn [fst snd] in Hm1, He1.
  pose proof (round_nearest_even_positive _ (loc_of_shr_record mrs1) Hm1) as Hr.
  destruct (round_nearest_even (shr_m mrs1) (loc_of_shr_record mrs1))
    as [| q | q]; try lia.
  destruct (shr_fexp_positive q e1 loc_Exact He1) as [Hm2 _].
  destruct (shr_fexp Double.prec Double.emax (Zpos q) e1 loc_Exact) as [mrs2 e2].
  cbn [fst] in Hm2.
  destruct (shr_m mrs2) as [| r | r]; try lia.
  destruct (e2 <=? Double.emax - Double.prec).
  - left. eauto.
  - right. reflexivity.
Qed.

Lemma binary_round_nonzero (s : bool) (p : positive) :
  signed_nonzero s (binary_round Double.prec Double.emax s p 0).
Proof.
  unfold binary_round, shl_align.
  destruct (fexp Double.prec Double.emax (Zpos (digits2_pos p) + 0) - 0)
    as [| d | d] eqn:Hd;
    apply binary_round_aux_nonzero;
    revert Hd; unfold fexp, emin, Double.prec, Double.emax; lia.
Qed.

Lemma of_Z_negative (p : positive) : signed_nonzero true (Double.of_Z (Zneg p)).
Proof. apply binary_round_nonzero. Qed.

Lemma of_Z_positive (p : positive) : signed_nonzero false (Double.of_Z (Zpos p)).
Proof. apply binary_round_nonzero. Qed.

Lemma signed_nonzero_neq_zero (s : bool) (x : Double.t) :
  signed_nonzero s x -> Double.eqb x (Double.of_Z 0) = false.
Proof.
  intros [[m [e ->]] | ->]; destruct s; reflexivity.
Qed.

(** ** The formatter *)

Lemma fmt_d_length (z : Z) : (1 <= String.length (fmt_d z))%nat.
Proof.
  unfold fmt_d. destruct (Z.to_int z) as [d | d]; destruct d; simpl; lia.
Qed.

Lemma digit_length (z : Z) : String.length (Double.digit z) = 1%nat.
Proof.
  unfold Double.digit.
  assert (Hr : In (z mod 10) [0; 1; 2; 3; 4; 5; 6; 7; 8; 9]).
  { pose proof (Z.mod_pos_bound z 10 ltac:(lia)). simpl. lia. }
  simpl in Hr.
  repeat (destruct Hr as [Hr | Hr]; [ rewrite <- Hr; reflexivity | ]).
  contradiction.
Qed.

(** What ["%.3fe%d"] prints is never the text of a zero duration. *)
Lemma fmt_3f_e_not_zero_text (x : Double.t) (z : Z) :
  Double.fmt_3f x ++ "e" ++ fmt_d z <> "0.0e0".
Proof.
  intros Heq. pose proof (fmt_d_length z) as Hz.
  destruct x as [[|] | [|] | | [|] m e]; try discriminate Heq.
  apply (f_equal String.length) in Heq.
  cbn [Double.fmt_3f Double.sign_text] in Heq.
  rewrite !string_app_length, !digit_length in Heq.
  pose proof (fmt_d_length (Double.thousandths m e / 1000)).
  simpl in Heq. lia.
Qed.

Section FormatterProperties.

Context `{Libm}.

Lemma print_scientific_text_nonzero (z : Z) :
  z <> 0 -> print_scientific_text z = general_text (Double.of_Z z).
Proof.
  intros Hz. unfold print_scientific_text.
  destruct z as [| p | p]; [ congruence | | ].
  - now rewrite (signed_nonzero_neq_zero false _ (of_Z_positive p)).
  - now rewrite (signed_nonzero_neq_zero true _ (of_Z_negative p)).
Qed.

Lemma log10_of_negative (x : Double.t) :
  signed_nonzero true x -> log10 x = S754_nan.
Proof. intros [[m [e ->]] | ->]; reflexivity. Qed.

Lemma exp3_of_negative (x : Double.t) :
  signed_nonzero true x -> exp3_of x = int_wrap (cast_int_invalid * 3).
Proof.
  intros Hx. unfold exp3_of. rewrite (log10_of_negative x Hx). reflexivity.
Qed.

Lemma general_text_not_zero_text (x : Double.t) : general_text x <> "0.0e0".
Proof. unfold general_text. apply fmt_3f_e_not_zero_text. Qed.

(** C9. The formatter applied to a zero nanosecond duration renders exactly
    the string 0.0e0: that is the text print_scientific formats, and the one
    write it makes to its stream. *)
Theorem print_scientific_zero (out : FILE) (w : world) :
  print_scientific_text 0 = "0.0e0"
  /\ new_writes (print_scientific out 0) w = [(out, "0.0e0")].
Proof.
  split; [ reflexivity | ].
  apply new_writes_of_append. reflexivity.
Qed.

(** ** The emitter *)

(** log_timer_end appends [emitted] and changes nothing else. *)
Lemma log_timer_end_run (t : log_timer_t) (e : Z) (w : world) :
  log_timer_end t e w = (t, with_written (written w ++ emitted w t e)%list w).
Proof.
  unfold log_timer_end, emitted, tree_writes, csv_writes, print_scientific.
  destruct (time_it_enable_tree w =? 0) eqn:Et;
    destruct (time_it_enable_csv w =? 0) eqn:Ec;
    cbn [negb]; unfold bind at 1;
    try (unfold bind at 1; rewrite for_upto_fputs);
    unfold bind, ret, fputs;
    cbn [written with_written time_it_tree_file time_it_csv_file
           time_it_enable_tree time_it_enable_csv];
    repeat rewrite <- app_assoc; cbn [app];
    try rewrite app_nil_r; try rewrite with_written_same; reflexivity.
Qed.

Lemma new_writes_log_timer_end (t : log_timer_t) (e : Z) (w : world) :
  new_writes (log_timer_end t e) w = emitted w t e.
Proof.
  apply new_writes_of_append. unfold exec. rewrite log_timer_end_run.
  reflexivity.
Qed.

Lemma tree_writes_target (out : FILE) (t : log_timer_t) (e : Z) :
  Forall (fun ev : write_event => fst ev = out) (tree_writes out t e).
Proof.
  unfold tree_writes. apply Forall_app. split.
  - apply Forall_forall. intros ev Hin. apply repeat_spec in Hin. now subst.
  - repeat constructor.
Qed.

Lemma csv_writes_target (out : FILE) (t : log_timer_t) (e : Z) :
  Forall (fun ev : write_event => fst ev = out) (csv_writes out t e).
Proof. unfold csv_writes. repeat constructor. Qed.



(** C10. log_timer_end only writes, and only to the resolved sinks: it
    returns the record as it got it, leaves the depth counter, the two sink
    pointers and the two enable flags (and the clock, the streams opened and
    closed) as they were, keeps every earlier write, and each write it adds
    goes to the resolved tree sink or the resolved tabular sink; when both
    formats are enabled the tree line comes before the tabular record. *)
Theorem log_timer_end_frame (t : log_timer_t) (e : Z) (w : world) :
  let w' := exec (log_timer_end t e) w in
  let tree_out := or_stderr (time_it_tree_file w) in
  let csv_out := or_stderr (time_it_csv_file w) in
  eval (log_timer_end t e) w = t
  /\ log_depth w' = log_depth w
  /\ time_it_tree_file w' = time_it_tree_file w
  /\ time_it_csv_file w' = time_it_csv_file w
  /\ time_it_enable_tree w' = time_it_enable_tree w
  /\ time_it_enable_csv w' = time_it_enable_csv w
  /\ clock_reads w' = clock_reads w
  /\ next_fd w' = next_fd w
  /\ closed w' = closed w
  /\ written w' = List.app (written w) (new_writes (log_timer_end t e) w)
  /\ Forall (fun ev : write_event => fst ev = tree_out \/ fst ev = csv_out)
       (new_writes (log_timer_end t e) w)
  /\ (time_it_enable_tree w <> 0 -> time_it_enable_csv w <> 0 ->
      new_writes (log_timer_end t e) w
      = List.app (tree_writes tree_out t e) (csv_writes csv_out t e)).
Proof.
  intros w' tree_out csv_out.
  assert (Hrun : log_timer_end t e w
                 = (t, with_written (List.app (written w) (emitted w t e)) w))
    by apply log_timer_end_run.
  subst w'. unfold exec, eval. rewrite Hrun. cbn [fst snd].
  rewrite new_writes_log_timer_end.
  repeat split; try reflexivity.
  - unfold emitted. apply Forall_app. split.
    + destruct (time_it_enable_tree w =? 0); [ constructor | ].
      eapply Forall_impl; [ | apply tree_writes_target ].
      intros ev Hev. now left.
    + destruct (time_it_enable_csv w =? 0); [ constructor | ].
      eapply Forall_impl; [ | apply csv_writes_target ].
      intros ev Hev. now right.
  - intros Ht Hc. unfold emitted.
    apply Z.eqb_neq in Ht. apply Z.eqb_neq in Hc. now rewrite Ht, Hc.
Qed.

(** C7. The setters store the pointer they are given, null included, and
    log_timer_end resolves the sinks when it runs: after the setters were
    called with [f] and [g] the tree line goes to [f] and the tabular record
    to [g], each replaced by standard error when null. So with both pointers
    null every write goes to standard error, and a configuration that was set
    and then reset to null emits exactly what one that was never configured
    emits. *)
Theorem sinks_resolved_at_write_time
  (t : log_timer_t) (e : Z) (w : world) (f g : option FILE) :
  let configured :=
    exec (time_it_set_tree_file f ;; time_it_set_csv_file g) w in
  let never := with_tree_file None (with_csv_file None w) in
  let reset :=
    exec (time_it_set_tree_file None ;; time_it_set_csv_file None) configured in
  time_it_tree_file configured = f
  /\ time_it_csv_file configured = g
  /\ new_writes (log_timer_end t e) configured
     = List.app
         (if time_it_enable_tree w =? 0 then []
          else tree_writes (or_stderr f) t e)
         (if time_it_enable_csv w =? 0 then []
          else csv_writes (or_stderr g) t e)
  /\ or_stderr None = stderr
  /\ Forall (fun ev : write_event => fst ev = stderr)
       (new_writes (log_timer_end t e) reset)
  /\ new_writes (log_timer_end t e) reset
     = new_writes (log_timer_end t e) never.
Proof.
  intros configured never reset.
  rewrite !new_writes_log_timer_end.
  repeat split; try reflexivity.
  unfold emitted, reset, configured, exec, bind,
    time_it_set_tree_file, time_it_set_csv_file.
  cbn [snd time_it_tree_file time_it_csv_file time_it_enable_tree
         time_it_enable_csv with_tree_file with_csv_file or_stderr].
  apply Forall_app. split.
  - destruct (time_it_enable_tree w =? 0);
      [ constructor | apply tree_writes_target ].
  - destruct (time_it_enable_csv w =? 0);
      [ constructor | apply csv_writes_target ].
Qed.

(** C6, as the code has it. A negative elapsed duration is neither clamped
    nor flagged. log_timer_end hands it to print_scientific as it is; being
    non-zero it takes the general case, where [log10] of the negative value
    is a NaN, so that the exponent is three times whatever the target's
    conversion of a NaN to [int] yields, wrapped to [int], whatever the
    duration; and the text written is never that of a zero duration. *)
Theorem negative_elapsed_takes_general_case
  (t : log_timer_t) (e : Z) (w : world) :
  e < 0 ->
  new_writes (log_timer_end t e) w = emitted w t e
  /\ print_scientific_text e = general_text (Double.of_Z e)
  /\ log10 (Double.of_Z e) = S754_nan
  /\ exp3_of (Double.of_Z e) = int_wrap (cast_int_invalid * 3)
  /\ print_scientific_text e <> "0.0e0".
Proof.
  intros He.
  assert (Hs : signed_nonzero true (Double.of_Z e)).
  { destruct e as [| p | p]; try lia. apply of_Z_negative. }
  assert (Hg : print_scientific_text e = general_text (Double.of_Z e))
    by (apply print_scientific_text_nonzero; lia).
  repeat split.
  - apply new_writes_log_timer_end.
  - exact Hg.
  - apply log10_of_negative, Hs.
  - apply exp3_of_negative, Hs.
  - rewrite Hg. apply general_text_not_zero_text.
Qed.

End FormatterProperties.

(** ** The scoped timer *)

Section TimerProperties.

Context `{Libm}.

Lemma TimeItTimer_run (f c : string) (w : world) :
  TimeItTimer f c w
  = ({| name := f; category := c;
        start := monotonic w (clock_reads w); depth := log_depth w |},
     with_clock_reads (S (clock_reads w))
       (with_log_depth (int_wrap (log_depth w + 1)) w)).
Proof. reflexivity. Qed.

Lemma TimeItTimer_dtor_run (t : log_timer_t) (w : world) :
  TimeItTimer_dtor t w
  = (tt,
     with_log_depth (int_wrap (log_depth w - 1))
       (with_written
          (written w
           ++ emitted w t (elapsed_ns_of (start t) (monotonic w (clock_reads w))))%list
          (with_clock_reads (S (clock_reads w)) w))).
Proof.
  unfold TimeItTimer_dtor, bind, clock_gettime.
  rewrite log_timer_end_run. reflexivity.
Qed.

(** The C macro and its cleanup handler are the C++ constructor and
    destructor. *)
Lemma TIME_IT_is_TimeItTimer (f c : string) : TIME_IT f c = TimeItTimer f c.
Proof. reflexivity. Qed.

Lemma log_timer_cleanup_is_dtor (t : log_timer_t) :
  log_timer_cleanup t = TimeItTimer_dtor t.
Proof. reflexivity. Qed.

Lemma c_scope_is_cxx_scope {A : Type} (f c : string) (body : M A) :
  c_scope f c body = cxx_scope f c body.
Proof. reflexivity. Qed.

(** One step of a run of nested scopes. *)
Ltac run_scope_step :=
  first [ rewrite TimeItTimer_run
        | rewrite TimeItTimer_dtor_run
        | progress unfold ret ];
  cbv beta iota.

(** C1. A thread with no timer active ([log_depth] is 0) runs three nested
    scopes, A around B around C. What reaches the sinks is what the emitter
    writes for C, then for B, then for A, the records carrying the depths 2,
    1 and 0 (and as start the third, second and first reading of the clock,
    the elapsed time running to the fourth, fifth and sixth); the depth
    counter is back at 0. The C macros do the same as the C++ object. *)
Theorem nested_scopes_emit_innermost_first
  (fA cA fB cB fC cC : string) (w : world) :
  log_depth w = 0 ->
  let now := fun i : nat => monotonic w (clock_reads w + i)%nat in
  let A := {| name := fA; category := cA; start := now 0%nat; depth := 0 |} in
  let B := {| name := fB; category := cB; start := now 1%nat; depth := 1 |} in
  let C := {| name := fC; category := cC; start := now 2%nat; depth := 2 |} in
  let eC := elapsed_ns_of (now 2%nat) (now 3%nat) in
  let eB := elapsed_ns_of (now 1%nat) (now 4%nat) in
  let eA := elapsed_ns_of (now 0%nat) (now 5%nat) in
  new_writes (nested3_cxx fA cA fB cB fC cC) w
  = new_writes
      (log_timer_end C eC ;; log_timer_end B eB ;; log_timer_end A eA) w
  /\ new_writes (nested3_cxx fA cA fB cB fC cC) w
     = List.app (emitted w C eC) (List.app (emitted w B eB) (emitted w A eA))
  /\ log_depth (exec (nested3_cxx fA cA fB cB fC cC) w) = 0
  /\ exec (nested3_c fA cA fB cB fC cC) w
     = exec (nested3_cxx fA cA fB cB fC cC) w.
Proof.
  intros Hd now A B C eC eB eA.
  assert (Hrun : written (exec (nested3_cxx fA cA fB cB fC cC) w)
                 = List.app (written w)
                     (List.app (emitted w C eC)
                        (List.app (emitted w B eB) (emitted w A eA)))
                 /\ log_depth (exec (nested3_cxx fA cA fB cB fC cC) w) = 0).
  { unfold nested3_cxx, cxx_scope, exec, bind.
    repeat run_scope_step.
    cbn [snd].
    cbn [written log_depth clock_reads monotonic with_log_depth
           with_written with_clock_reads].
    rewrite Hd. change (int_wrap (0 + 1)) with 1.
    change (int_wrap (1 + 1)) with 2. change (int_wrap (2 + 1)) with 3.
    change (int_wrap (3 - 1)) with 2. change (int_wrap (2 - 1)) with 1.
    change (int_wrap (1 - 1)) with 0.
    split; [ | reflexivity ].
    rewrite <- !app_assoc. unfold emitted, eC, eB, eA, A, B, C, now.
    cbn [time_it_enable_tree time_it_enable_csv time_it_tree_file
           time_it_csv_file with_log_depth with_written with_clock_reads].
    rewrite !Nat.add_0_r.
    replace (clock_reads w + 1)%nat with (S (clock_reads w)) by lia.
    replace (clock_reads w + 2)%nat with (S (S (clock_reads w))) by lia.
    replace (clock_reads w + 3)%nat with (S (S (S (clock_reads w)))) by lia.
    replace (clock_reads w + 4)%nat
      with (S (S (S (S (clock_reads w))))) by lia.
    replace (clock_reads w + 5)%nat
      with (S (S (S (S (S (clock_reads w)))))) by lia.
    reflexivity. }
  destruct Hrun as [Hw Hdepth].
  split; [ | split; [ | split ] ].
  - rewrite (new_writes_of_append _ _ _ Hw). symmetry.
    apply new_writes_of_append. unfold exec, bind.
    rewrite !log_timer_end_run. cbn [snd written with_written].
    rewrite <- !app_assoc. unfold emitted.
    cbn [time_it_enable_tree time_it_enable_csv time_it_tree_file
           time_it_csv_file with_written].
    reflexivity.
  - apply new_writes_of_append, Hw.
  - exact Hdepth.
  - reflexivity.
Qed.

(** C2. In the lifecycle of a scoped timer, whatever the body of the scope
    does: the constructor stores in [depth] the value the depth counter has
    before it increments it; on scope exit the destructor reads the clock,
    emits the record and only then decrements the counter. The emitter
    returns the record as it got it, so the record emitted is the one the
    constructor built: its depth is the counter's value at construction,
    also when the body has left the counter at another value. The C macro
    and its cleanup handler do the same. *)
Theorem depth_snapshot_lifecycle
  {A : Type} (f c : string) (body : M A) (w : world) :
  let t := eval (TimeItTimer f c) w in
  let w1 := exec (TimeItTimer f c) w in
  let w2 := exec body w1 in
  let e := elapsed_ns_of (start t) (monotonic w2 (clock_reads w2)) in
  t = {| name := f; category := c;
         start := monotonic w (clock_reads w); depth := log_depth w |}
  /\ log_depth w1 = int_wrap (log_depth w + 1)
  /\ exec (cxx_scope f c body) w
     = exec log_depth_post_decr
         (exec (log_timer_end t e) (exec clock_gettime w2))
  /\ eval (log_timer_end t e) (exec clock_gettime w2) = t
  /\ written (exec (cxx_scope f c body) w)
     = List.app (written w2) (emitted w2 t e)
  /\ log_depth (exec (cxx_scope f c body) w) = int_wrap (log_depth w2 - 1)
  /\ exec (c_scope f c body) w = exec (cxx_scope f c body) w.
Proof.
  intros t w1 w2 e.
  assert (Hscope : exec (cxx_scope f c body) w
                   = exec (TimeItTimer_dtor t) w2).
  { unfold cxx_scope, exec, bind, w2, w1, t, exec, eval.
    destruct (TimeItTimer f c w) as [t0 w0]. cbn [fst snd].
    destruct (body w0) as [r w3]. cbn [snd].
    destruct (TimeItTimer_dtor t0 w3) as [u w4]. reflexivity. }
  assert (Hdtor : exec (TimeItTimer_dtor t) w2
                  = with_log_depth (int_wrap (log_depth w2 - 1))
                      (with_written (List.app (written w2) (emitted w2 t e))
                         (with_clock_reads (S (clock_reads w2)) w2))).
  { unfold exec. rewrite TimeItTimer_dtor_run. reflexivity. }
  split; [ reflexivity | ]. split; [ reflexivity | ].
  split; [ | split; [ | split; [ | split ] ] ].
  - rewrite Hscope, Hdtor. unfold exec at 2 3.
    rewrite log_timer_end_run. reflexivity.
  - unfold eval. rewrite log_timer_end_run. reflexivity.
  - rewrite Hscope, Hdtor. reflexivity.
  - rewrite Hscope, Hdtor. reflexivity.
  - reflexivity.
Qed.

(** C4. Take as start the instant a timer record holds and as end the
    reading of the clock on scope exit, the end not before the start and
    their distance in nanoseconds a [long]. The elapsed time the destructor
    (and the C cleanup handler) computes and hands to the emitter is the end
    minus the start in nanoseconds. It is what borrowing a second from the
    whole seconds gives when the end's [tv_nsec] is the smaller one, and it
    is never negative: the signed sum absorbs a negative difference of the
    [tv_nsec] fields. *)
Theorem elapsed_is_end_minus_start (t : log_timer_t) (w : world) :
  let end_ := monotonic w (clock_reads w) in
  total_ns (start t) <= total_ns end_ ->
  total_ns end_ - total_ns (start t) <= LONG_MAX ->
  elapsed_ns_of (start t) end_ = total_ns end_ - total_ns (start t)
  /\ elapsed_ns_of (start t) end_ = elapsed_nanos_borrow (start t) end_
  /\ 0 <= elapsed_ns_of (start t) end_
  /\ TimeItTimer_dtor t w
     = (clock_gettime ;;
        log_timer_end t (total_ns end_ - total_ns (start t)) ;;
        log_depth_post_decr ;;
        ret tt) w
  /\ log_timer_cleanup t w
     = (clock_gettime ;;
        log_timer_end t (total_ns end_ - total_ns (start t)) ;;
        log_depth_post_decr ;;
        ret tt) w.
Proof.
  intros end_ Hle Hmax.
  assert (He : elapsed_ns_of (start t) end_ = total_ns end_ - total_ns (start t)).
  { apply elapsed_ns_of_exact. unfold in_long, LONG_MIN, LONG_MAX in *. lia. }
  assert (Hd : TimeItTimer_dtor t w
               = (clock_gettime ;;
                  log_timer_end t (total_ns end_ - total_ns (start t)) ;;
                  log_depth_post_decr ;;
                  ret tt) w).
  { unfold TimeItTimer_dtor, bind, clock_gettime. fold end_.
    rewrite He. reflexivity. }
  split; [ exact He | ].
  split; [ rewrite elapsed_nanos_borrow_exact; exact He | ].
  split; [ rewrite He; lia | ].
  split; exact Hd.
Qed.

End TimerProperties.

(** ** The sink installer *)

(** Releasing the C++ installer: both sinks are standard error afterwards,
    whatever they were, and the streams it holds are closed, standard error
    apart. *)
Lemma cxx_release_closes_and_resets (o : TimeItBasenameFiles_t) (w : world) :
  let w' := exec (TimeItBasenameFiles_dtor o) w in
  time_it_tree_file w' = Some stderr
  /\ time_it_csv_file w' = Some stderr
  /\ (forall fd, tree_f_ o = Some (opened fd) -> In (opened fd) (closed w'))
  /\ (forall fd, csv_f_ o = Some (opened fd) -> In (opened fd) (closed w'))
  /\ (In stderr (closed w') -> In stderr (closed w)).
Proof.
  destruct o as [[[| a] |] [[| b] |]]; cbn; repeat split;
    try reflexivity;
    try (intros fd Hfd; inversion Hfd; subst; cbn; now auto);
    cbn; intuition discriminate.
Qed.

(** The cleanup handlers of the C macro close the streams the macro opened
    and leave both sinks as they are. *)
Lemma c_cleanup_keeps_sinks (l : basename_locals) (w : world) :
  let w' := exec (SET_TIME_IT_OUTPUT_FILE_BASENAME_cleanup l) w in
  time_it_tree_file w' = time_it_tree_file w
  /\ time_it_csv_file w' = time_it_csv_file w
  /\ (forall fd, __time_it_tree__ l = Some (opened fd) -> In (opened fd) (closed w'))
  /\ (forall fd, __time_it_csv__ l = Some (opened fd) -> In (opened fd) (closed w')).
Proof.
  destruct l as [[[| a] |] [[| b] |]]; cbn; repeat split;
    try reflexivity;
    intros fd Hfd; inversion Hfd; subst; cbn; now auto.
Qed.

(** C5, where the code departs from it. Installing on the basename timings
    in a world where both files open and releasing at once: the C++ object
    closes both streams and leaves both sinks at standard error; the C macro
    closes both streams as well, and leaves the tree sink and the tabular
    sink pointing at the two streams it has just closed. *)
Theorem c_release_leaves_closed_streams_as_sinks :
  let cxx :=
    exec (o <- TimeItBasenameFiles "timings" ;; TimeItBasenameFiles_dtor o)
      sample_world in
  let c :=
    exec (l <- SET_TIME_IT_OUTPUT_FILE_BASENAME "timings" ;;
          SET_TIME_IT_OUTPUT_FILE_BASENAME_cleanup l)
      sample_world in
  (time_it_tree_file cxx = Some stderr
   /\ time_it_csv_file cxx = Some stderr
   /\ closed cxx = [opened 1; opened 0])
  /\ (time_it_tree_file c = Some (opened 0)
      /\ time_it_csv_file c = Some (opened 1)
      /\ closed c = [opened 0; opened 1]).
Proof. repeat split. Qed.

(** ** The model at work *)

(** The three nested scopes of C1 in [sample_world]: the lines of C, B and A
    in that order, indented by 8, 4 and 0 spaces in the tree output and
    marked 2, 1 and 0 in the tabular output. The elapsed times are a second
    less 7 ns, three seconds less 21 ns and five seconds less 35 ns. *)
Example nested_scopes_sample_run :
  new_writes (@nested3_cxx SampleLibm.libm "f" "a" "g" "b" "h" "c") sample_world
  = [(stderr, "    "); (stderr, "    "); (stderr, "h [c]: ");
     (stderr, "1000.000e6"); (stderr, LF);
     (stderr, "2,h,c,"); (stderr, "1000.000e6"); (stderr, LF);
     (stderr, "    "); (stderr, "g [b]: ");
     (stderr, "3.000e9"); (stderr, LF);
     (stderr, "1,g,b,"); (stderr, "3.000e9"); (stderr, LF);
     (stderr, "f [a]: "); (stderr, "5.000e9"); (stderr, LF);
     (stderr, "0,f,a,"); (stderr, "5.000e9"); (stderr, LF)].
Proof. vm_compute. reflexivity. Qed.

(** The formatter on either side of an exponent boundary, with [SampleLibm]. *)
Example print_scientific_sample_texts :
  map (@print_scientific_text SampleLibm.libm) [1; 999; 1000; 10070000; 123456]
  = ["1.000e0"; "999.000e0"; "1.000e3"; "10.070e6"; "123.456e3"].
Proof. vm_compute. reflexivity. Qed.

(** The nested scopes of C1 in [sample_world], where no timer is active. *)
Lemma nested_scopes_witness :
  log_depth sample_world = 0
  /\ log_depth
       (exec (@nested3_cxx SampleLibm.libm "f" "a" "g" "b" "h" "c") sample_world)
     = 0.
Proof.
  split; [ reflexivity | ].
  exact (proj1 (proj2 (proj2
           (@nested_scopes_emit_innermost_first SampleLibm.libm
              "f" "a" "g" "b" "h" "c" sample_world eq_refl)))).
Defined.

(** The elapsed time of C4 from 1.9 s to 2.1 s: the end has the smaller
    [tv_nsec], and the result is 200000000 ns. *)
Lemma elapsed_with_borrow_witness :
  total_ns (start sample_timer) <= total_ns (monotonic later_world 0%nat)
  /\ total_ns (monotonic later_world 0%nat) - total_ns (start sample_timer)
     <= LONG_MAX
  /\ elapsed_ns_of (start sample_timer) (monotonic later_world 0%nat)
     = total_ns (monotonic later_world 0%nat) - total_ns (start sample_timer)
  /\ total_ns (monotonic later_world 0%nat) - total_ns (start sample_timer)
     = 200000000.
Proof.
  assert (H1 : total_ns (start sample_timer)
               <= total_ns (monotonic later_world 0%nat))
    by (vm_compute; discriminate).
  assert (H2 : total_ns (monotonic later_world 0%nat)
               - total_ns (start sample_timer) <= LONG_MAX)
    by (vm_compute; discriminate).
  split; [ exact H1 | split; [ exact H2 | split; [ | reflexivity ] ] ].
  exact (proj1 (@elapsed_is_end_minus_start SampleLibm.libm
                  sample_timer later_world H1 H2)).
Defined.


(** The amended C6 at an elapsed time of -1 ns. *)
Lemma negative_elapsed_witness :
  -1 < 0
  /\ @print_scientific_text SampleLibm.libm (-1)
     = @general_text SampleLibm.libm (Double.of_Z (-1)).
Proof.
  assert (H1 : -1 < 0) by reflexivity.
  split; [ exact H1 | ].
  exact (proj1 (proj2
           (@negative_elapsed_takes_general_case SampleLibm.libm
              sample_timer (-1) sample_world H1))).
Defined.

(** C6 fails on the code. A clock that runs backwards makes the destructor
    compute a negative elapsed time, here -1000000000 ns, and the emitter
    writes it as -infe-2147483648 to both outputs (with [SampleLibm], where
    the conversion of a NaN yields [INT_MIN] as on x86-64), where a zero
    duration is written 0.0e0: no clamp, no flag, a garbage value with a
    negative exponent. The same text comes out for -1 ns. *)
Lemma negative_elapsed_is_written_as_garbage :
  elapsed_ns_of (start sample_timer) (monotonic backwards_world 0%nat)
  = -1000000000
  /\ new_writes (@TimeItTimer_dtor SampleLibm.libm sample_timer) backwards_world
     = [(stderr, "    "); (stderr, "main [work]: ");
        (stderr, "-infe-2147483648"); (stderr, LF);
        (stderr, "1,main,work,"); (stderr, "-infe-2147483648"); (stderr, LF)]
  /\ @print_scientific_text SampleLibm.libm (-1) = "-infe-2147483648"
  /\ @print_scientific_text SampleLibm.libm 0 = "0.0e0".
Proof. repeat split; vm_compute; reflexivity. Qed.

(** * Further properties of the header *)

(** ** The emitter and the formatter *)

Lemma exec_bind {A B : Type} (m : M A) (k : A -> M B) (w : world) :
  exec (bind m k) w = exec (k (eval m w)) (exec m w).
Proof. unfold exec, eval, bind. destruct (m w) as [a w']. reflexivity. Qed.

Lemma eval_bind {A B : Type} (m : M A) (k : A -> M B) (w : world) :
  eval (bind m k) w = eval (k (eval m w)) (exec m w).
Proof. unfold exec, eval, bind. destruct (m w) as [a w']. reflexivity. Qed.

Section EmitterExtras.

Context `{Libm}.



(** X2. The enable flags gate the two outputs independently. After
    [time_it_set_tree (0)] an emission writes the tabular record alone (or
    nothing, when that output is off as well); after [time_it_set_csv (0)]
    it writes the tree line alone; after both it leaves the world as it is.
    Any non-zero value enables an output. *)
Theorem disabled_outputs_write_nothing
  (t : log_timer_t) (e b : Z) (w : world) :
  new_writes (log_timer_end t e) (exec (time_it_set_tree 0) w)
  = (if time_it_enable_csv w =? 0 then []
     else csv_writes (or_stderr (time_it_csv_file w)) t e)
  /\ new_writes (log_timer_end t e) (exec (time_it_set_csv 0) w)
     = (if time_it_enable_tree w =? 0 then []
        else tree_writes (or_stderr (time_it_tree_file w)) t e)
  /\ exec (log_timer_end t e) (exec (time_it_set_tree 0 ;; time_it_set_csv 0) w)
     = exec (time_it_set_tree 0 ;; time_it_set_csv 0) w
  /\ (b <> 0 ->
      new_writes (log_timer_end t e)
        (exec (time_it_set_tree b ;; time_it_set_csv b) w)
      = List.app (tree_writes (or_stderr (time_it_tree_file w)) t e)
          (csv_writes (or_stderr (time_it_csv_file w)) t e)).
Proof.
  rewrite !new_writes_log_timer_end.
  split; [ | split; [ | split ] ].
  - unfold emitted. cbn. reflexivity.
  - unfold emitted. cbn. apply app_nil_r.
  - unfold exec at 1. rewrite log_timer_end_run. cbn [snd].
    unfold emitted. cbn. rewrite app_nil_r. reflexivity.
  - intros Hb. unfold emitted. cbn.
    apply Z.eqb_neq in Hb. rewrite Hb. reflexivity.
Qed.

(** X3. print_scientific writes 0.0e0 for a zero duration and for no other:
    the conversion of a non-zero [long] to [double] never compares equal to
    zero, and what the general case prints always differs from 0.0e0. *)
Theorem zero_text_only_for_zero (e : Z) :
  print_scientific_text e = "0.0e0" <-> e = 0.
Proof.
  split.
  - intros Htext. destruct (Z.eq_dec e 0) as [He | He]; [ exact He | ].
    rewrite (print_scientific_text_nonzero e He) in Htext.
    now apply general_text_not_zero_text in Htext.
  - intros ->. reflexivity.
Qed.

End EmitterExtras.

(** ** Scopes *)

Section ScopeExtras.

Context `{Libm}.

Lemma exec_cxx_scope {A : Type} (f c : string) (body : M A) (w : world) :
  exec (cxx_scope f c body) w
  = exec (TimeItTimer_dtor (eval (TimeItTimer f c) w))
      (exec body (exec (TimeItTimer f c) w)).
Proof.
  unfold cxx_scope. rewrite !exec_bind. reflexivity.
Qed.

Lemma eval_cxx_scope {A : Type} (f c : string) (body : M A) (w : world) :
  eval (cxx_scope f c body) w = eval body (exec (TimeItTimer f c) w).
Proof.
  unfold cxx_scope. rewrite !eval_bind. reflexivity.
Qed.

Lemma exec_TimeItTimer (f c : string) (w : world) :
  exec (TimeItTimer f c) w
  = with_clock_reads (S (clock_reads w))
      (with_log_depth (int_wrap (log_depth w + 1)) w).
Proof. reflexivity. Qed.

Lemma eval_TimeItTimer (f c : string) (w : world) :
  eval (TimeItTimer f c) w
  = {| name := f; category := c;
       start := monotonic w (clock_reads w); depth := log_depth w |}.
Proof. reflexivity. Qed.

Lemma exec_TimeItTimer_dtor (t : log_timer_t) (w : world) :
  exec (TimeItTimer_dtor t) w
  = with_log_depth (int_wrap (log_depth w - 1))
      (with_written
         (written w
          ++ emitted w t (elapsed_ns_of (start t) (monotonic w (clock_reads w))))%list
         (with_clock_reads (S (clock_reads w)) w)).
Proof. unfold exec. rewrite TimeItTimer_dtor_run. reflexivity. Qed.

Lemma world_eq (w1 w2 : world) :
  time_it_tree_file w1 = time_it_tree_file w2 ->
  time_it_csv_file w1 = time_it_csv_file w2 ->
  time_it_enable_tree w1 = time_it_enable_tree w2 ->
  time_it_enable_csv w1 = time_it_enable_csv w2 ->
  log_depth w1 = log_depth w2 ->
  monotonic w1 = monotonic w2 ->
  clock_reads w1 = clock_reads w2 ->
  openable w1 = openable w2 ->
  next_fd w1 = next_fd w2 ->
  written w1 = written w2 ->
  closed w1 = closed w2 ->
  w1 = w2.
Proof.
  destruct w1, w2. cbn [time_it_tree_file time_it_csv_file time_it_enable_tree
                         time_it_enable_csv log_depth monotonic clock_reads
                         openable next_fd written closed].
  intros; subst; reflexivity.
Qed.

Lemma with_nothing_changed (w : world) :
  with_written (written w ++ [])%list (with_clock_reads (clock_reads w + 0) w) = w.
Proof. destruct w. cbn. rewrite app_nil_r, Nat.add_0_r. reflexivity. Qed.

Lemma run_forest_exec (p : forest) :
  forall w : world,
    INT_MIN <= log_depth w ->
    log_depth w + forest_height p <= INT_MAX ->
    exec (run_forest p) w
    = with_written
        (written w
         ++ flat_map (fun te => emitted w (fst te) (snd te))
              (forest_records (monotonic w) (log_depth w) (clock_reads w) p))%list
        (with_clock_reads (clock_reads w + 2 * forest_size p) w).
Proof.
  induction p as [| f c inner IHi next IHn]; intros w Hlo Hhi.
  - cbn [run_forest forest_records forest_size flat_map]. unfold exec, ret.
    cbn [snd]. symmetry. apply with_nothing_changed.
  - cbn [forest_height] in Hhi.
    assert (Hh1 : 0 <= forest_height inner).
    { clear. induction inner; cbn [forest_height]; lia. }
    cbn [run_forest]. rewrite exec_bind, exec_cxx_scope.
    rewrite exec_TimeItTimer, eval_TimeItTimer.
    assert (Hin : int_wrap (log_depth w + 1) = log_depth w + 1)
      by (apply int_wrap_id; lia).
    rewrite IHi by (cbn [log_depth with_clock_reads with_log_depth]; rewrite Hin; lia).
    rewrite exec_TimeItTimer_dtor.
    rewrite IHn.
    + cbn [written log_depth clock_reads monotonic with_log_depth
             with_written with_clock_reads start].
      rewrite Hin.
      replace (int_wrap (log_depth w + 1 - 1)) with (log_depth w)
        by (replace (log_depth w + 1 - 1) with (log_depth w) by lia;
            symmetry; apply int_wrap_id; lia).
      cbn [forest_records forest_size]. rewrite flat_map_app. cbn [flat_map fst snd].
      unfold emitted.
      cbn [time_it_enable_tree time_it_enable_csv time_it_tree_file
             time_it_csv_file with_log_depth with_written with_clock_reads].
      apply world_eq;
        cbn [time_it_tree_file time_it_csv_file time_it_enable_tree
               time_it_enable_csv log_depth monotonic clock_reads openable
               next_fd written closed with_log_depth with_written
               with_clock_reads];
        try reflexivity.
      * lia.
      * rewrite <- !app_assoc. reflexivity.
    + cbn [log_depth with_log_depth with_written with_clock_reads].
      rewrite Hin. replace (log_depth w + 1 - 1) with (log_depth w) by lia.
      rewrite int_wrap_id; lia.
    + cbn [log_depth with_log_depth with_written with_clock_reads].
      rewrite Hin. replace (log_depth w + 1 - 1) with (log_depth w) by lia.
      rewrite int_wrap_id; lia.
Qed.

Lemma forest_height_nonneg (p : forest) : 0 <= forest_height p.
Proof. induction p; cbn [forest_height]; lia. Qed.

Lemma forest_records_length (clock : nat -> timespec) (p : forest) :
  forall (d : Z) (r : nat),
    List.length (forest_records clock d r p) = forest_size p.
Proof.
  induction p as [| f c inner IHi next IHn]; intros d r;
    cbn [forest_records forest_size]; [ reflexivity | ].
  rewrite length_app. cbn [List.length]. rewrite IHi, IHn. lia.
Qed.

Lemma forest_records_depths (clock : nat -> timespec) (p : forest) :
  forall (d : Z) (r : nat),
    Forall (fun te : log_timer_t * Z =>
              d <= depth (fst te) < d + forest_height p)
      (forest_records clock d r p).
Proof.
  induction p as [| f c inner IHi next IHn]; intros d r;
    cbn [forest_records forest_height]; [ constructor | ].
  pose proof (forest_height_nonneg inner).
  pose proof (forest_height_nonneg next).
  apply Forall_app. split; [ | constructor ].
  - eapply Forall_impl; [ | apply IHi ]. cbn beta. intros te Hte. lia.
  - cbn [fst depth]. lia.
  - eapply Forall_impl; [ | apply IHn ]. cbn beta. intros te Hte. lia.
Qed.

(** X4. A timed scope is transparent to the code around it: it returns what
    its body returns, and when the body leaves the depth counter where it
    found it, the scope does so too, as long as the counter can be
    incremented without overflowing [int]. *)
Theorem scope_restores_depth
  {A : Type} (f c : string) (body : M A) (w : world) :
  INT_MIN <= log_depth w < INT_MAX ->
  log_depth (exec body (exec (TimeItTimer f c) w))
  = log_depth (exec (TimeItTimer f c) w) ->
  log_depth (exec (cxx_scope f c body) w) = log_depth w
  /\ eval (cxx_scope f c body) w = eval body (exec (TimeItTimer f c) w)
  /\ log_depth (exec (c_scope f c body) w) = log_depth w.
Proof.
  intros Hr Hbody.
  assert (Hd : log_depth (exec (cxx_scope f c body) w) = log_depth w).
  { rewrite exec_cxx_scope, exec_TimeItTimer_dtor.
    cbn [log_depth with_log_depth]. rewrite Hbody, exec_TimeItTimer.
    cbn [log_depth with_log_depth with_clock_reads].
    rewrite (int_wrap_id (log_depth w + 1)) by lia.
    replace (log_depth w + 1 - 1) with (log_depth w) by lia.
    apply int_wrap_id. lia. }
  split; [ exact Hd | ]. split; [ apply eval_cxx_scope | exact Hd ].
Qed.

(** X5. A block of timed scopes nested and sequenced in any way, entered at
    a depth from which its deepest nesting does not overflow [int]: the
    records reach the sinks in the order in which the scopes are left, every
    scope after the scopes inside it and before the scopes that follow it,
    each with the depth of its nesting level; there is one record per scope;
    afterwards the depth counter is where it was, the clock has been read
    twice per scope, and the sinks and flags are untouched. *)
Theorem forest_emits_in_exit_order (p : forest) (w : world) :
  INT_MIN <= log_depth w ->
  log_depth w + forest_height p <= INT_MAX ->
  let records :=
    forest_records (monotonic w) (log_depth w) (clock_reads w) p in
  let w' := exec (run_forest p) w in
  written w'
  = List.app (written w)
      (flat_map (fun te => emitted w (fst te) (snd te)) records)
  /\ List.length records = forest_size p
  /\ Forall (fun te : log_timer_t * Z =>
               log_depth w <= depth (fst te) < log_depth w + forest_height p)
       records
  /\ log_depth w' = log_depth w
  /\ clock_reads w' = (clock_reads w + 2 * forest_size p)%nat
  /\ time_it_tree_file w' = time_it_tree_file w
  /\ time_it_csv_file w' = time_it_csv_file w
  /\ time_it_enable_tree w' = time_it_enable_tree w
  /\ time_it_enable_csv w' = time_it_enable_csv w.
Proof.
  intros Hlo Hhi records w'. subst w'.
  rewrite (run_forest_exec p w Hlo Hhi). fold records.
  split; [ reflexivity | ].
  split; [ apply forest_records_length | ].
  split; [ apply forest_records_depths | ].
  repeat split.
Qed.

End ScopeExtras.

(** X6. Elapsed times nest. For a scope timed from [s] to [e] around a scope
    timed from [s'] to [e'], the clock not running backwards between these
    four readings and the whole distance a [long]: the inner elapsed time is
    not negative and not more than the outer one, and the outer one is the
    inner one plus the time before and the time after the inner scope. *)
Theorem elapsed_times_nest (s s' e' e : timespec) :
  total_ns s <= total_ns s' ->
  total_ns s' <= total_ns e' ->
  total_ns e' <= total_ns e ->
  total_ns e - total_ns s <= LONG_MAX ->
  0 <= elapsed_ns_of s' e' <= elapsed_ns_of s e
  /\ elapsed_ns_of s e
     = elapsed_ns_of s s' + elapsed_ns_of s' e' + elapsed_ns_of e' e.
Proof.
  intros H1 H2 H3 H4.
  assert (Hr : forall a b, total_ns s <= total_ns a -> total_ns a <= total_ns b ->
               total_ns b <= total_ns e ->
               elapsed_ns_of a b = total_ns b - total_ns a).
  { intros a b Ha Hab Hb. apply elapsed_ns_of_exact.
    unfold in_long, LONG_MIN, LONG_MAX in *. lia. }
  rewrite (Hr s e), (Hr s' e'), (Hr s s'), (Hr e' e) by lia.
  lia.
Qed.

(** The program of the README in [sample_world]: sub_task and the block of
    extra work at depth 1, in that order, then main at depth 0. *)
Example readme_program_run :
  new_writes (@run_forest SampleLibm.libm readme_program) sample_world
  = [(stderr, "    "); (stderr, "sub_task [sub_task]: ");
     (stderr, "1000.000e6"); (stderr, LF);
     (stderr, "1,sub_task,sub_task,"); (stderr, "1000.000e6"); (stderr, LF);
     (stderr, "    "); (stderr, "main [extra work]: ");
     (stderr, "1000.000e6"); (stderr, LF);
     (stderr, "1,main,extra work,"); (stderr, "1000.000e6"); (stderr, LF);
     (stderr, "main [main scope]: "); (stderr, "5.000e9"); (stderr, LF);
     (stderr, "0,main,main scope,"); (stderr, "5.000e9"); (stderr, LF)].
Proof. vm_compute. reflexivity. Qed.

(** A scope around an empty body at depth 0. *)
Lemma scope_restores_depth_witness :
  INT_MIN <= log_depth sample_world < INT_MAX
  /\ log_depth (exec (@cxx_scope SampleLibm.libm unit "f" "c" (ret tt))
                  sample_world)
     = log_depth sample_world.
Proof.
  assert (H1 : INT_MIN <= log_depth sample_world < INT_MAX)
    by (split; vm_compute; [ discriminate | reflexivity ]).
  split; [ exact H1 | ].
  exact (proj1 (@scope_restores_depth SampleLibm.libm unit "f" "c" (ret tt)
                  sample_world H1 eq_refl)).
Defined.

(** The program of the README entered at depth 0. *)
Lemma forest_emits_in_exit_order_witness :
  INT_MIN <= log_depth sample_world
  /\ log_depth sample_world + forest_height readme_program <= INT_MAX
  /\ log_depth (exec (@run_forest SampleLibm.libm readme_program) sample_world)
     = log_depth sample_world.
Proof.
  assert (H1 : INT_MIN <= log_depth sample_world)
    by (vm_compute; discriminate).
  assert (H2 : log_depth sample_world + forest_height readme_program <= INT_MAX)
    by (vm_compute; discriminate).
  split; [ exact H1 | split; [ exact H2 | ] ].
  exact (proj1 (proj2 (proj2 (proj2
           (@forest_emits_in_exit_order SampleLibm.libm readme_program
              sample_world H1 H2))))).
Defined.

(** An outer scope from the first to the fourth reading of [sample_clock]
    around an inner one from the second to the third. *)
Lemma elapsed_times_nest_witness :
  0 <= elapsed_ns_of (sample_clock 1) (sample_clock 2)
    <= elapsed_ns_of (sample_clock 0) (sample_clock 3).
Proof.
  assert (H1 : total_ns (sample_clock 0) <= total_ns (sample_clock 1))
    by (vm_compute; discriminate).
  assert (H2 : total_ns (sample_clock 1) <= total_ns (sample_clock 2))
    by (vm_compute; discriminate).
  assert (H3 : total_ns (sample_clock 2) <= total_ns (sample_clock 3))
    by (vm_compute; discriminate).
  assert (H4 : total_ns (sample_clock 3) - total_ns (sample_clock 0) <= LONG_MAX)
    by (vm_compute; discriminate).
  exact (proj1 (elapsed_times_nest (sample_clock 0) (sample_clock 1)
                  (sample_clock 2) (sample_clock 3) H1 H2 H3 H4)).
Defined.


(** ** The sink installer *)

Lemma substring_whole (s : string) :
  forall m : nat, (String.length s <= m)%nat -> substring 0 m s = s.
Proof.
  induction s as [| x s IH]; intros m Hm.
  - destruct m; reflexivity.
  - destruct m as [| m]; cbn in Hm; [ lia | ].
    cbn. rewrite IH by lia. reflexivity.
Qed.

Lemma substring_app_right (a b : string) :
  forall m : nat,
    (String.length a <= m)%nat ->
    substring 0 m (a ++ b) = a ++ substring 0 (m - String.length a) b.
Proof.
  induction a as [| x a IH]; intros m Hm.
  - cbn. rewrite Nat.sub_0_r. reflexivity.
  - destruct m as [| m]; cbn in Hm; [ lia | ].
    cbn. rewrite IH by lia. reflexivity.
Qed.

Lemma substring_app_left (a b : string) :
  forall m : nat,
    (m <= String.length a)%nat -> substring 0 m (a ++ b) = substring 0 m a.
Proof.
  induction a as [| x a IH]; intros m Hm.
  - cbn in Hm. assert (m = 0)%nat by lia. subst m.
    destruct b; reflexivity.
  - destruct m as [| m]; [ reflexivity | ].
    cbn in Hm. cbn. rewrite IH by lia. reflexivity.
Qed.

Lemma substring_length (s : string) :
  forall m : nat,
    (m <= String.length s)%nat -> String.length (substring 0 m s) = m.
Proof.
  induction s as [| x s IH]; intros m Hm.
  - cbn in Hm. assert (m = 0)%nat by lia. subst m. reflexivity.
  - destruct m as [| m]; [ reflexivity | ].
    cbn in Hm. cbn. rewrite IH by lia. reflexivity.
Qed.

Lemma long_basename_paths (basename : string) :
  (510 <= String.length basename)%nat ->
  tree_path_of basename = csv_path_of basename
  /\ String.length (tree_path_of basename) = 511%nat.
Proof.
  intros Hlen. unfold tree_path_of, csv_path_of, snprintf. cbn [Nat.sub].
  destruct (Nat.eq_dec (String.length basename) 510) as [H510 | H510].
  - rewrite !substring_app_right by lia. rewrite H510. split; [ reflexivity | ].
    rewrite string_app_length, H510. reflexivity.
  - rewrite !substring_app_left by lia. split; [ reflexivity | ].
    apply substring_length. lia.
Qed.

(** What the constructor of the installer returns and leaves. *)
Lemma TimeItBasenameFiles_run (basename : string) (w : world) :
  TimeItBasenameFiles basename w
  = (let tree_ok := openable w (tree_path_of basename) in
     let csv_ok := openable w (csv_path_of basename) in
     let tree_f := if tree_ok then opened (next_fd w) else stderr in
     let csv_f :=
       if csv_ok then opened (if tree_ok then S (next_fd w) else next_fd w)
       else stderr in
     ({| tree_f_ := Some tree_f; csv_f_ := Some csv_f |},
      with_csv_file (Some csv_f)
        (with_tree_file (Some tree_f)
           (with_next_fd
              ((if tree_ok then 1 else 0) + (if csv_ok then 1 else 0) + next_fd w)
              w)))).
Proof.
  unfold TimeItBasenameFiles, tree_path_of, csv_path_of, bind, fopen,
    time_it_set_tree_file, time_it_set_csv_file, ret.
  destruct (openable w (snprintf 512 basename ".log")) eqn:Et;
    cbn [openable with_next_fd next_fd];
    destruct (openable w (snprintf 512 basename ".csv")) eqn:Ec;
    cbn [or_stderr]; destruct w; reflexivity.
Qed.

(** The C macro leaves the world the constructor leaves; its locals are null
    where the object holds standard error. *)
Lemma SET_TIME_IT_OUTPUT_FILE_BASENAME_run (basename : string) (w : world) :
  SET_TIME_IT_OUTPUT_FILE_BASENAME basename w
  = (let tree_ok := openable w (tree_path_of basename) in
     let csv_ok := openable w (csv_path_of basename) in
     ({| __time_it_tree__ :=
           if tree_ok then Some (opened (next_fd w)) else None;
         __time_it_csv__ :=
           if csv_ok
           then Some (opened (if tree_ok then S (next_fd w) else next_fd w))
           else None |},
      exec (TimeItBasenameFiles basename) w)).
Proof.
  unfold exec. rewrite TimeItBasenameFiles_run. cbv zeta. cbn [snd].
  unfold SET_TIME_IT_OUTPUT_FILE_BASENAME, tree_path_of, csv_path_of, bind,
    fopen, time_it_set_tree_file, time_it_set_csv_file, ret.
  destruct (openable w (snprintf 512 basename ".log")) eqn:Et;
    cbn [openable with_next_fd next_fd];
    destruct (openable w (snprintf 512 basename ".csv")) eqn:Ec;
    cbn [or_stderr]; destruct w; reflexivity.
Qed.

Lemma TimeItBasenameFiles_dtor_exec (o : TimeItBasenameFiles_t) (w : world) :
  exec (TimeItBasenameFiles_dtor o) w
  = with_csv_file (Some stderr)
      (with_tree_file (Some stderr)
         (with_closed
            (List.app (closing (csv_f_ o))
               (List.app (closing (tree_f_ o)) (closed w)))
            w)).
Proof. destruct o as [[[| a] |] [[| b] |]]; destruct w; reflexivity. Qed.

Lemma cleanup_exec (l : basename_locals) (w : world) :
  exec (SET_TIME_IT_OUTPUT_FILE_BASENAME_cleanup l) w
  = with_closed
      (List.app (closing (__time_it_tree__ l))
         (List.app (closing (__time_it_csv__ l)) (closed w)))
      w.
Proof. destruct l as [[[| a] |] [[| b] |]]; destruct w; reflexivity. Qed.

Lemma closing_not_stderr (f : option FILE) : ~ In stderr (closing f).
Proof. destruct f as [[| fd] |]; cbn; intuition discriminate. Qed.

(** X7. The paths of the sink installer are built in buffers of 512 bytes.
    A basename of at most 507 bytes gives basename.log and basename.csv. A
    basename of 510 bytes or more loses the part of the suffix that tells
    the two apart: both paths are the same 511 bytes. *)
Theorem installer_paths (basename : string) :
  ((String.length basename <= 507)%nat ->
   tree_path_of basename = basename ++ ".log"
   /\ csv_path_of basename = basename ++ ".csv")
  /\ ((510 <= String.length basename)%nat ->
      tree_path_of basename = csv_path_of basename
      /\ String.length (tree_path_of basename) = 511%nat).
Proof.
  split.
  - intros Hlen. unfold tree_path_of, csv_path_of, snprintf. cbn [Nat.sub].
    split; apply substring_whole; rewrite string_app_length; cbn; lia.
  - intros Hlen. exact (long_basename_paths basename Hlen).
Qed.

(** X8. Installing never leaves a sink null. Each sink becomes the stream
    fopen returned for its path, a fresh one, or standard error when the
    file cannot be opened; the two streams opened are distinct; the object
    holds the same two streams. Nothing is written or closed, and the depth
    counter and the enable flags stay as they are. The C macro leaves the
    same world as the C++ constructor, its locals being null where the
    object holds standard error. *)
Theorem install_configures_sinks (basename : string) (w : world) :
  let o := eval (TimeItBasenameFiles basename) w in
  let w' := exec (TimeItBasenameFiles basename) w in
  let l := eval (SET_TIME_IT_OUTPUT_FILE_BASENAME basename) w in
  let tree_ok := openable w (tree_path_of basename) in
  let csv_ok := openable w (csv_path_of basename) in
  tree_f_ o = Some (if tree_ok then opened (next_fd w) else stderr)
  /\ csv_f_ o
     = Some (if csv_ok
             then opened (if tree_ok then S (next_fd w) else next_fd w)
             else stderr)
  /\ time_it_tree_file w' = tree_f_ o
  /\ time_it_csv_file w' = csv_f_ o
  /\ (tree_ok = true -> csv_ok = true -> tree_f_ o <> csv_f_ o)
  /\ written w' = written w
  /\ closed w' = closed w
  /\ log_depth w' = log_depth w
  /\ time_it_enable_tree w' = time_it_enable_tree w
  /\ time_it_enable_csv w' = time_it_enable_csv w
  /\ exec (SET_TIME_IT_OUTPUT_FILE_BASENAME basename) w = w'
  /\ closing (__time_it_tree__ l) = closing (tree_f_ o)
  /\ closing (__time_it_csv__ l) = closing (csv_f_ o).
Proof.
  intros o w' l tree_ok csv_ok.
  assert (Ho : o = {| tree_f_ :=
                        Some (if tree_ok then opened (next_fd w) else stderr);
                      csv_f_ :=
                        Some (if csv_ok
                              then opened (if tree_ok then S (next_fd w)
                                           else next_fd w)
                              else stderr) |}).
  { subst o. unfold eval. rewrite TimeItBasenameFiles_run. reflexivity. }
  assert (Hw' : written w' = written w /\ closed w' = closed w
                /\ log_depth w' = log_depth w
                /\ time_it_enable_tree w' = time_it_enable_tree w
                /\ time_it_enable_csv w' = time_it_enable_csv w
                /\ time_it_tree_file w' = tree_f_ o
                /\ time_it_csv_file w' = csv_f_ o).
  { subst w' o. unfold exec, eval. rewrite TimeItBasenameFiles_run.
    repeat split. }
  assert (Hsame : exec (SET_TIME_IT_OUTPUT_FILE_BASENAME basename) w = w').
  { unfold exec at 1. rewrite SET_TIME_IT_OUTPUT_FILE_BASENAME_run.
    reflexivity. }
  assert (Hl : l = {| __time_it_tree__ :=
                        if tree_ok then Some (opened (next_fd w)) else None;
                      __time_it_csv__ :=
                        if csv_ok
                        then Some (opened (if tree_ok then S (next_fd w)
                                           else next_fd w))
                        else None |}).
  { subst l. unfold eval. rewrite SET_TIME_IT_OUTPUT_FILE_BASENAME_run.
    reflexivity. }
  clearbody o w' l.
  destruct Hw' as (H1 & H2 & H3 & H4 & H5 & H6 & H7).
  subst o l. cbn [tree_f_ csv_f_ __time_it_tree__ __time_it_csv__] in *.
  repeat split; try assumption.
  - intros Ht Hcsv. rewrite Ht, Hcsv. intros Heq. injection Heq as Heq. lia.
  - destruct tree_ok; reflexivity.
  - destruct csv_ok; reflexivity.
Qed.

(** X9. Releasing the installer closes exactly the streams it holds that are
    not standard error, the tree stream first, and never standard error.
    The C++ destructor then sets both sinks to standard error, whatever they
    were and whatever the object holds, and changes nothing else. The
    cleanup handlers of the C macro close the same streams in the opposite
    order. *)
Theorem release_closes_own_streams
  (o : TimeItBasenameFiles_t) (l : basename_locals) (w : world) :
  exec (TimeItBasenameFiles_dtor o) w
  = with_csv_file (Some stderr)
      (with_tree_file (Some stderr)
         (with_closed
            (List.app (closing (csv_f_ o))
               (List.app (closing (tree_f_ o)) (closed w)))
            w))
  /\ closed (exec (SET_TIME_IT_OUTPUT_FILE_BASENAME_cleanup l) w)
     = List.app (closing (__time_it_tree__ l))
         (List.app (closing (__time_it_csv__ l)) (closed w))
  /\ ~ In stderr (closing (tree_f_ o))
  /\ ~ In stderr (closing (csv_f_ o))
  /\ ~ In stderr (closing (__time_it_tree__ l))
  /\ ~ In stderr (closing (__time_it_csv__ l)).
Proof.
  split; [ apply TimeItBasenameFiles_dtor_exec | ].
  split; [ rewrite cleanup_exec; reflexivity | ].
  repeat split; apply closing_not_stderr.
Qed.

Section RoutingExtras.

Context `{Libm}.

(** X10. While the installer is alive an emission goes to its streams: the
    tree line to the stream opened on the tree path and the tabular record
    to the stream opened on the tabular path, each to standard error when
    its file could not be opened. Once the C++ installer is released every
    write of an emission goes to standard error, which is not among the
    streams the release has closed. *)
Theorem emission_follows_installer
  (basename : string) (t : log_timer_t) (e : Z) (w : world) :
  let o := eval (TimeItBasenameFiles basename) w in
  let installed := exec (TimeItBasenameFiles basename) w in
  let released := exec (TimeItBasenameFiles_dtor o) installed in
  let tree_ok := openable w (tree_path_of basename) in
  let csv_ok := openable w (csv_path_of basename) in
  new_writes (log_timer_end t e) installed
  = List.app
      (if time_it_enable_tree w =? 0 then []
       else tree_writes (if tree_ok then opened (next_fd w) else stderr) t e)
      (if time_it_enable_csv w =? 0 then []
       else csv_writes
              (if csv_ok
               then opened (if tree_ok then S (next_fd w) else next_fd w)
               else stderr) t e)
  /\ new_writes (log_timer_end t e) released
     = List.app
         (if time_it_enable_tree w =? 0 then [] else tree_writes stderr t e)
         (if time_it_enable_csv w =? 0 then [] else csv_writes stderr t e)
  /\ Forall (fun ev : write_event => fst ev = stderr)
       (new_writes (log_timer_end t e) released)
  /\ closed released
     = List.app (closing (csv_f_ o)) (List.app (closing (tree_f_ o)) (closed w))
  /\ ~ In stderr (List.app (closing (csv_f_ o)) (closing (tree_f_ o))).
Proof.
  intros o installed released tree_ok csv_ok.
  assert (Hrel : released
                 = with_csv_file (Some stderr)
                     (with_tree_file (Some stderr)
                        (with_closed
                           (List.app (closing (csv_f_ o))
                              (List.app (closing (tree_f_ o)) (closed installed)))
                           installed))).
  { subst released. apply TimeItBasenameFiles_dtor_exec. }
  assert (Hinst : installed
                  = snd (TimeItBasenameFiles basename w)) by reflexivity.
  rewrite TimeItBasenameFiles_run in Hinst. cbv zeta in Hinst. cbn [snd] in Hinst.
  fold tree_ok csv_ok in Hinst.
  rewrite !new_writes_log_timer_end.
  assert (Hnew : emitted released t e
                 = List.app
                     (if time_it_enable_tree w =? 0 then []
                      else tree_writes stderr t e)
                     (if time_it_enable_csv w =? 0 then []
                      else csv_writes stderr t e)).
  { rewrite Hrel, Hinst. reflexivity. }
  split; [ rewrite Hinst; reflexivity | ].
  split; [ exact Hnew | ]. split.
  - rewrite Hnew. apply Forall_app. split.
    + destruct (time_it_enable_tree w =? 0);
        [ constructor | apply tree_writes_target ].
    + destruct (time_it_enable_csv w =? 0);
        [ constructor | apply csv_writes_target ].
  - split; [ rewrite Hrel, Hinst; reflexivity | ].
    intros Hin. apply in_app_or in Hin.
    destruct Hin as [Hin | Hin]; exact (closing_not_stderr _ Hin).
Qed.

End RoutingExtras.

Section MainExtras.

Context `{Libm}.

(** X11. A function that installs the sinks on a basename and then runs a
    block of timed scopes, in C++ or in C: every record of the block, in the
    order in which the scopes are left, is written to the streams the
    installer configured, and nothing else is written; on return the streams
    the installer opened are closed and the depth counter is where it was.
    The C++ function leaves both sinks at standard error. *)
Theorem main_writes_to_installed_sinks
  (basename : string) (p : forest) (w : world) :
  INT_MIN <= log_depth w ->
  log_depth w + forest_height p <= INT_MAX ->
  let o := eval (TimeItBasenameFiles basename) w in
  let installed := exec (TimeItBasenameFiles basename) w in
  let records :=
    forest_records (monotonic w) (log_depth w) (clock_reads w) p in
  let out := flat_map (fun te => emitted installed (fst te) (snd te)) records in
  let cxx := exec (cxx_main basename p) w in
  let c := exec (c_main basename p) w in
  written cxx = List.app (written w) out
  /\ written c = List.app (written w) out
  /\ closed cxx
     = List.app (closing (csv_f_ o)) (List.app (closing (tree_f_ o)) (closed w))
  /\ closed c
     = List.app (closing (tree_f_ o)) (List.app (closing (csv_f_ o)) (closed w))
  /\ log_depth cxx = log_depth w
  /\ log_depth c = log_depth w
  /\ time_it_tree_file cxx = Some stderr
  /\ time_it_csv_file cxx = Some stderr.
Proof.
  intros Hlo Hhi o installed records out cxx c.
  assert (Hinst : installed = snd (TimeItBasenameFiles basename w))
    by reflexivity.
  assert (Ho : o = fst (TimeItBasenameFiles basename w)) by reflexivity.
  rewrite TimeItBasenameFiles_run in Hinst, Ho. cbv zeta in Hinst, Ho.
  cbn [fst snd] in Hinst, Ho.
  assert (Hframe : written installed = written w
                   /\ closed installed = closed w
                   /\ log_depth installed = log_depth w
                   /\ monotonic installed = monotonic w
                   /\ clock_reads installed = clock_reads w)
    by (rewrite Hinst; repeat split).
  destruct Hframe as (Hw & Hc & Hd & Hmono & Hreads).
  assert (Hrun : exec (run_forest p) installed
                 = with_written (List.app (written w) out)
                     (with_clock_reads (clock_reads w + 2 * forest_size p)
                        installed)).
  { rewrite run_forest_exec by (rewrite Hd; assumption).
    rewrite Hw, Hd, Hmono, Hreads. reflexivity. }
  assert (Hcxx : cxx = exec (TimeItBasenameFiles_dtor o)
                         (exec (run_forest p) installed)).
  { subst cxx. unfold cxx_main. rewrite !exec_bind. reflexivity. }
  assert (Hl : SET_TIME_IT_OUTPUT_FILE_BASENAME basename w
               = (fst (SET_TIME_IT_OUTPUT_FILE_BASENAME basename w), installed)).
  { rewrite SET_TIME_IT_OUTPUT_FILE_BASENAME_run. reflexivity. }
  assert (Hcc : c = exec (SET_TIME_IT_OUTPUT_FILE_BASENAME_cleanup
                            (eval (SET_TIME_IT_OUTPUT_FILE_BASENAME basename) w))
                      (exec (run_forest p) installed)).
  { subst c. unfold c_main. rewrite !exec_bind.
    unfold exec at 3. rewrite Hl. reflexivity. }
  assert (Hlocals :
            closing (__time_it_tree__
                       (eval (SET_TIME_IT_OUTPUT_FILE_BASENAME basename) w))
            = closing (tree_f_ o)
            /\ closing (__time_it_csv__
                          (eval (SET_TIME_IT_OUTPUT_FILE_BASENAME basename) w))
               = closing (csv_f_ o)).
  { unfold eval. rewrite SET_TIME_IT_OUTPUT_FILE_BASENAME_run. cbv zeta.
    rewrite Ho. cbn [fst tree_f_ csv_f_ __time_it_tree__ __time_it_csv__].
    destruct (openable w (tree_path_of basename));
      destruct (openable w (csv_path_of basename)); split; reflexivity. }
  destruct Hlocals as [Hlt Hlc].
  rewrite Hcxx, Hcc, TimeItBasenameFiles_dtor_exec, cleanup_exec, Hlt, Hlc, Hrun.
  cbn [written closed log_depth time_it_tree_file time_it_csv_file
         with_csv_file with_tree_file with_closed with_written
         with_clock_reads].
  rewrite Hc, Hd. repeat split.
Qed.

End MainExtras.

(** The program of the README behind the installer, entered at depth 0. *)
Lemma main_writes_to_installed_sinks_witness :
  INT_MIN <= log_depth sample_world
  /\ log_depth sample_world + forest_height readme_program <= INT_MAX
  /\ closed (exec (@cxx_main SampleLibm.libm "timings" readme_program)
               sample_world)
     = [opened 1; opened 0].
Proof.
  assert (H1 : INT_MIN <= log_depth sample_world)
    by (vm_compute; discriminate).
  assert (H2 : log_depth sample_world + forest_height readme_program <= INT_MAX)
    by (vm_compute; discriminate).
  split; [ exact H1 | split; [ exact H2 | ] ].
  exact (proj1 (proj2 (proj2
           (@main_writes_to_installed_sinks SampleLibm.libm "timings"
              readme_program sample_world H1 H2)))).
Defined.

(** The README's function in [sample_world]: the tree lines go to the stream
    of timings.log and the records to the stream of timings.csv. *)
Example readme_main_run :
  new_writes (@cxx_main SampleLibm.libm "timings" readme_program) sample_world
  = [(opened 0, "    "); (opened 0, "sub_task [sub_task]: ");
     (opened 0, "1000.000e6"); (opened 0, LF);
     (opened 1, "1,sub_task,sub_task,"); (opened 1, "1000.000e6");
     (opened 1, LF);
     (opened 0, "    "); (opened 0, "main [extra work]: ");
     (opened 0, "1000.000e6"); (opened 0, LF);
     (opened 1, "1,main,extra work,"); (opened 1, "1000.000e6");
     (opened 1, LF);
     (opened 0, "main [main scope]: "); (opened 0, "5.000e9"); (opened 0, LF);
     (opened 1, "0,main,main scope,"); (opened 1, "5.000e9"); (opened 1, LF)].
Proof. vm_compute. reflexivity. Qed.

(** The basename timings, and a basename of 510 bytes. *)
Lemma installer_paths_witness :
  tree_path_of "timings" = "timings.log"
  /\ csv_path_of "timings" = "timings.csv"
  /\ tree_path_of (copies 510 "a") = csv_path_of (copies 510 "a").
Proof.
  assert (H1 : (String.length "timings" <= 507)%nat) by (vm_compute; lia).
  assert (H2 : (510 <= String.length (copies 510 "a"))%nat)
    by (vm_compute; lia).
  split; [ | split ].
  - exact (proj1 (proj1 (installer_paths "timings") H1)).
  - exact (proj2 (proj1 (installer_paths "timings") H1)).
  - exact (proj1 (proj2 (installer_paths (copies 510 "a")) H2)).
Defined.

(** * The general case of the formatter: rounding and accuracy *)

(** ** Rounding to binary64, in integers *)










(** ** Rounding to binary64, in real numbers *)

Module RoundingR.

Import Reals Lra.
Local Open Scope R_scope.














End RoundingR.

(** ** The general case of the formatter *)





